(** * Orbit: the Vulkan layer's dispatch table and the frame-pointer validator

    A shallow embedding of [OrbitVulkanLayer/DispatchTable.h] and of the
    interface declared in
    [OrbitFramePointerValidator/FramePointerValidator.h].

    The class [DispatchTable] owns four hash maps keyed by the dispatch-table
    pointer found in the first word of every dispatchable Vulkan object, and
    one reader/writer mutex.  Every member function is embedded as the list of
    its atomic statements, in source order: taking the lock, each [CHECK],
    each assignment to a map, the [return] expression, and the release done by
    the lock's destructor.  Running such a list alone gives the sequential
    meaning of a call; interleaving the lists of several threads gives the
    concurrent one. *)

From stdpp Require Import gmap strings list.

(** ** Machine-level data *)

(** Addresses, function pointers, dispatchable handles and dispatch keys are
    all pointer-sized values. *)
Abbreviation Ptr := N (only parsing).
Abbreviation Handle := N (only parsing).
Abbreviation Key := N (only parsing).

Definition nullptr : Ptr := 0%N.

(** The pointer-sized object stored at each address. *)
Definition Memory : Type := N → Ptr.

(** [PFN_vkGetInstanceProcAddr] and [PFN_vkGetDeviceProcAddr]: the next
    layer's resolver, from an object and a function name to a pointer. *)
Definition Resolver : Type := Handle → string → Ptr.

Module VkLayerInstanceDispatchTable.
(** The members of the struct that the layer fills in. *)
Record t : Type := Build {
  DestroyInstance : Ptr;
  GetInstanceProcAddr : Ptr;
  EnumerateDeviceExtensionProperties : Ptr;
  GetPhysicalDeviceProperties : Ptr
}.
End VkLayerInstanceDispatchTable.

Module VkLayerDispatchTable.
(** The members of the struct that the layer fills in. *)
Record t : Type := Build {
  DestroyDevice : Ptr;
  GetDeviceProcAddr : Ptr;
  ResetCommandPool : Ptr;
  AllocateCommandBuffers : Ptr;
  FreeCommandBuffers : Ptr;
  BeginCommandBuffer : Ptr;
  EndCommandBuffer : Ptr;
  ResetCommandBuffer : Ptr;
  QueueSubmit : Ptr;
  QueuePresentKHR : Ptr;
  GetDeviceQueue : Ptr;
  GetDeviceQueue2 : Ptr;
  CreateQueryPool : Ptr;
  ResetQueryPoolEXT : Ptr;
  CmdWriteTimestamp : Ptr;
  GetQueryPoolResults : Ptr;
  CmdBeginDebugUtilsLabelEXT : Ptr;
  CmdEndDebugUtilsLabelEXT : Ptr;
  CmdDebugMarkerBeginEXT : Ptr;
  CmdDebugMarkerEndEXT : Ptr
}.
End VkLayerDispatchTable.

(** ** absl::Mutex used as a reader/writer lock *)

Module Mutex.
Record t : Type := Build {
  writer_held : bool;
  reader_count : nat
}.

Definition free : t := {| writer_held := false; reader_count := 0 |}.

Definition is_free (m : t) : bool :=
  negb (writer_held m) && bool_decide (reader_count m = 0).

(** [WriterLock]: waits until the mutex is free. *)
Definition WriterLock (m : t) : option t :=
  if writer_held m then None
  else match reader_count m with
       | O => Some {| writer_held := true; reader_count := 0 |}
       | S _ => None
       end.

Definition WriterUnlock (m : t) : t :=
  {| writer_held := false; reader_count := reader_count m |}.

(** [ReaderLock]: waits until the mutex is free or held in shared mode. *)
Definition ReaderLock (m : t) : option t :=
  if writer_held m then None
  else Some {| writer_held := false; reader_count := S (reader_count m) |}.

Definition ReaderUnlock (m : t) : t :=
  {| writer_held := writer_held m; reader_count := pred (reader_count m) |}.
End Mutex.

(** ** The class DispatchTable *)

Module DispatchTable.

Module I := VkLayerInstanceDispatchTable.
Module D := VkLayerDispatchTable.

(** The four maps guarded by [mutex_]. *)
Record Tables : Type := BuildTables {
  instance_dispatch_table_ : gmap Key I.t;
  device_dispatch_table_ : gmap Key D.t;
  device_supports_debug_marker_extension_ : gmap Key bool;
  device_supports_debug_utils_extension_ : gmap Key bool
}.

Record t : Type := Build {
  tables : Tables;
  mutex_ : Mutex.t
}.

(** [DispatchTable() = default]. *)
Definition empty_tables : Tables :=
  {| instance_dispatch_table_ := ∅;
     device_dispatch_table_ := ∅;
     device_supports_debug_marker_extension_ := ∅;
     device_supports_debug_utils_extension_ := ∅ |}.

Definition init : t := {| tables := empty_tables; mutex_ := Mutex.free |}.

Definition set_instance_dispatch_table_
    (f : gmap Key I.t → gmap Key I.t) (T : Tables) : Tables :=
  {| instance_dispatch_table_ := f (instance_dispatch_table_ T);
     device_dispatch_table_ := device_dispatch_table_ T;
     device_supports_debug_marker_extension_ :=
       device_supports_debug_marker_extension_ T;
     device_supports_debug_utils_extension_ :=
       device_supports_debug_utils_extension_ T |}.

Definition set_device_dispatch_table_
    (f : gmap Key D.t → gmap Key D.t) (T : Tables) : Tables :=
  {| instance_dispatch_table_ := instance_dispatch_table_ T;
     device_dispatch_table_ := f (device_dispatch_table_ T);
     device_supports_debug_marker_extension_ :=
       device_supports_debug_marker_extension_ T;
     device_supports_debug_utils_extension_ :=
       device_supports_debug_utils_extension_ T |}.

Definition set_device_supports_debug_marker_extension_
    (f : gmap Key bool → gmap Key bool) (T : Tables) : Tables :=
  {| instance_dispatch_table_ := instance_dispatch_table_ T;
     device_dispatch_table_ := device_dispatch_table_ T;
     device_supports_debug_marker_extension_ :=
       f (device_supports_debug_marker_extension_ T);
     device_supports_debug_utils_extension_ :=
       device_supports_debug_utils_extension_ T |}.

Definition set_device_supports_debug_utils_extension_
    (f : gmap Key bool → gmap Key bool) (T : Tables) : Tables :=
  {| instance_dispatch_table_ := instance_dispatch_table_ T;
     device_dispatch_table_ := device_dispatch_table_ T;
     device_supports_debug_marker_extension_ :=
       device_supports_debug_marker_extension_ T;
     device_supports_debug_utils_extension_ :=
       f (device_supports_debug_utils_extension_ T) |}.

(** [flat_hash_map::contains]. *)
Definition contains {V : Type} (m : gmap Key V) (key : Key) : bool :=
  bool_decide (is_Some (m !! key)).

(** What a member function hands back to its caller. *)
Inductive Value : Type :=
| VVoid
| VPtr (p : Ptr)
| VBool (b : bool).

(** *** Statements

    An expression that uses [flat_hash_map::at] has no value when the key is
    missing ([at] throws, nothing catches it, the process terminates). *)
Inductive Instr : Type :=
| WriterMutexLock                       (* absl::WriterMutexLock lock(&mutex_); *)
| WriterMutexUnlock                     (* its destructor, at the end of the scope *)
| ReaderMutexLock                       (* absl::ReaderMutexLock lock(&mutex_); *)
| ReaderMutexUnlock                     (* its destructor, at the end of the scope *)
| CHECK (cond : Tables → option bool)   (* CHECK(cond); *)
| Assign (upd : Tables → Tables)        (* map[key] = v;  map.erase(key); *)
| Return (e : Tables → option Value).   (* return e; *)

Inductive StepResult : Type :=
| Next (s : t) (r : Value)
| Abort
| Block.

(** One statement, run on the object [s] by a thread whose pending return
    value is [r]. *)
Definition instr_step (i : Instr) (s : t) (r : Value) : StepResult :=
  match i with
  | WriterMutexLock =>
      match Mutex.WriterLock (mutex_ s) with
      | Some m => Next {| tables := tables s; mutex_ := m |} r
      | None => Block
      end
  | WriterMutexUnlock =>
      Next {| tables := tables s; mutex_ := Mutex.WriterUnlock (mutex_ s) |} r
  | ReaderMutexLock =>
      match Mutex.ReaderLock (mutex_ s) with
      | Some m => Next {| tables := tables s; mutex_ := m |} r
      | None => Block
      end
  | ReaderMutexUnlock =>
      Next {| tables := tables s; mutex_ := Mutex.ReaderUnlock (mutex_ s) |} r
  | CHECK cond =>
      match cond (tables s) with
      | Some true => Next s r
      | _ => Abort
      end
  | Assign upd =>
      Next {| tables := upd (tables s); mutex_ := mutex_ s |} r
  | Return e =>
      match e (tables s) with
      | Some v => Next s v
      | None => Abort
      end
  end.

(** The outcome of a whole call made by one thread with no other thread
    running: it returns, a [CHECK] kills the process, or the thread waits
    for a lock nobody will release. *)
Inductive Outcome (A : Type) : Type :=
| Done (a : A)
| Fatal
| Blocked.
Arguments Done {A} a.
Arguments Fatal {A}.
Arguments Blocked {A}.

Fixpoint exec (code : list Instr) (s : t) (r : Value) : Outcome (Value * t) :=
  match code with
  | [] => Done (r, s)
  | i :: rest =>
      match instr_step i s r with
      | Next s' r' => exec rest s' r'
      | Abort => Fatal
      | Block => Blocked
      end
  end.

Definition call (code : list Instr) (s : t) : Outcome (Value * t) :=
  exec code s VVoid.

(** How a thread holds [mutex_]. *)
Inductive Hold : Type := NoLock | Shared | Exclusive.

#[global] Instance Hold_eq_dec : EqDecision Hold.
Proof. solve_decision. Defined.

Definition hold_after (i : Instr) (h : Hold) : Hold :=
  match i with
  | WriterMutexLock => Exclusive
  | ReaderMutexLock => Shared
  | WriterMutexUnlock | ReaderMutexUnlock => NoLock
  | _ => h
  end.

Section Methods.
Variable mem : Memory.

(** [return *absl::bit_cast<void**>(dispatchable_object);] *)
Definition GetDispatchTableKey (dispatchable_object : Handle) : Key :=
  mem dispatchable_object.

(** The local [dispatch_table] of [CreateInstanceDispatchTable], filled in
    through the resolver before the lock is taken. *)
Definition resolved_instance_table
    (instance : Handle) (next_get_instance_proc_addr_function : Resolver) : I.t :=
  {| I.DestroyInstance :=
       next_get_instance_proc_addr_function instance "vkDestroyInstance";
     I.GetInstanceProcAddr :=
       next_get_instance_proc_addr_function instance "vkGetInstanceProcAddr";
     I.EnumerateDeviceExtensionProperties :=
       next_get_instance_proc_addr_function instance
         "vkEnumerateDeviceExtensionProperties";
     I.GetPhysicalDeviceProperties :=
       next_get_instance_proc_addr_function instance
         "vkGetPhysicalDeviceProperties" |}.

Definition CreateInstanceDispatchTable
    (instance : Handle) (next_get_instance_proc_addr_function : Resolver)
    : list Instr :=
  let dispatch_table :=
    resolved_instance_table instance next_get_instance_proc_addr_function in
  let key := GetDispatchTableKey instance in
  [ WriterMutexLock;
    CHECK (λ T, Some (negb (contains (instance_dispatch_table_ T) key)));
    Assign (set_instance_dispatch_table_ (insert key dispatch_table));
    WriterMutexUnlock ].

Definition RemoveInstanceDispatchTable (instance : Handle) : list Instr :=
  let key := GetDispatchTableKey instance in
  [ WriterMutexLock;
    CHECK (λ T, Some (contains (instance_dispatch_table_ T) key));
    Assign (set_instance_dispatch_table_ (delete key));
    WriterMutexUnlock ].

(** The local [dispatch_table] of [CreateDeviceDispatchTable], filled in
    through the resolver before the lock is taken. *)
Definition resolved_device_table
    (device : Handle) (next_get_device_proc_addr_function : Resolver) : D.t :=
  let next := next_get_device_proc_addr_function device in
  {| D.DestroyDevice := next "vkDestroyDevice";
     D.GetDeviceProcAddr := next "vkGetDeviceProcAddr";
     D.ResetCommandPool := next "vkResetCommandPool";
     D.AllocateCommandBuffers := next "vkAllocateCommandBuffers";
     D.FreeCommandBuffers := next "vkFreeCommandBuffers";
     D.BeginCommandBuffer := next "vkBeginCommandBuffer";
     D.EndCommandBuffer := next "vkEndCommandBuffer";
     D.ResetCommandBuffer := next "vkResetCommandBuffer";
     D.QueueSubmit := next "vkQueueSubmit";
     D.QueuePresentKHR := next "vkQueuePresentKHR";
     D.GetDeviceQueue := next "vkGetDeviceQueue";
     D.GetDeviceQueue2 := next "vkGetDeviceQueue2";
     D.CreateQueryPool := next "vkCreateQueryPool";
     D.ResetQueryPoolEXT := next "vkResetQueryPoolEXT";
     D.CmdWriteTimestamp := next "vkCmdWriteTimestamp";
     D.GetQueryPoolResults := next "vkGetQueryPoolResults";
     D.CmdBeginDebugUtilsLabelEXT := next "vkCmdBeginDebugUtilsLabelEXT";
     D.CmdEndDebugUtilsLabelEXT := next "vkCmdEndDebugUtilsLabelEXT";
     D.CmdDebugMarkerBeginEXT := next "vkCmdDebugMarkerBeginEXT";
     D.CmdDebugMarkerEndEXT := next "vkCmdDebugMarkerEndEXT" |}.

Definition CreateDeviceDispatchTable
    (device : Handle) (next_get_device_proc_addr_function : Resolver)
    : list Instr :=
  let dispatch_table :=
    resolved_device_table device next_get_device_proc_addr_function in
  let key := GetDispatchTableKey device in
  [ WriterMutexLock;
    CHECK (λ T, Some (negb (contains (device_dispatch_table_ T) key)));
    Assign (set_device_dispatch_table_ (insert key dispatch_table));
    CHECK (λ T, Some (negb (contains
             (device_supports_debug_utils_extension_ T) key)));
    Assign (set_device_supports_debug_utils_extension_ (insert key
             (bool_decide (D.CmdBeginDebugUtilsLabelEXT dispatch_table ≠ nullptr)
              && bool_decide (D.CmdEndDebugUtilsLabelEXT dispatch_table ≠ nullptr))));
    CHECK (λ T, Some (negb (contains
             (device_supports_debug_marker_extension_ T) key)));
    Assign (set_device_supports_debug_marker_extension_ (insert key
             (bool_decide (D.CmdDebugMarkerBeginEXT dispatch_table ≠ nullptr)
              && bool_decide (D.CmdDebugMarkerEndEXT dispatch_table ≠ nullptr))));
    WriterMutexUnlock ].

Definition RemoveDeviceDispatchTable (device : Handle) : list Instr :=
  let key := GetDispatchTableKey device in
  [ WriterMutexLock;
    CHECK (λ T, Some (contains (device_dispatch_table_ T) key));
    Assign (set_device_dispatch_table_ (delete key));
    CHECK (λ T, Some (contains (device_supports_debug_utils_extension_ T) key));
    Assign (set_device_supports_debug_utils_extension_ (delete key));
    CHECK (λ T, Some (contains (device_supports_debug_marker_extension_ T) key));
    Assign (set_device_supports_debug_marker_extension_ (delete key));
    WriterMutexUnlock ].

(** The body shared by the accessors of the device table: each of them is
    this text with its own member of [VkLayerDispatchTable].  The source
    derives the key right after taking the lock; the derivation reads the
    object's memory only, none of the guarded maps. *)
Definition device_accessor (member : D.t → Ptr) (dispatchable_object : Handle)
    : list Instr :=
  let key := GetDispatchTableKey dispatchable_object in
  [ ReaderMutexLock;
    CHECK (λ T, Some (contains (device_dispatch_table_ T) key));
    CHECK (λ T, dt ← device_dispatch_table_ T !! key;
                Some (bool_decide (member dt ≠ nullptr)));
    Return (λ T, dt ← device_dispatch_table_ T !! key;
                 Some (VPtr (member dt)));
    ReaderMutexUnlock ].

(** The same for the accessors of the instance table. *)
Definition instance_accessor (member : I.t → Ptr) (dispatchable_object : Handle)
    : list Instr :=
  let key := GetDispatchTableKey dispatchable_object in
  [ ReaderMutexLock;
    CHECK (λ T, Some (contains (instance_dispatch_table_ T) key));
    CHECK (λ T, dt ← instance_dispatch_table_ T !! key;
                Some (bool_decide (member dt ≠ nullptr)));
    Return (λ T, dt ← instance_dispatch_table_ T !! key;
                 Some (VPtr (member dt)));
    ReaderMutexUnlock ].

Definition DestroyDevice := device_accessor D.DestroyDevice.
Definition DestroyInstance := instance_accessor I.DestroyInstance.
Definition EnumerateDeviceExtensionProperties :=
  instance_accessor I.EnumerateDeviceExtensionProperties.
Definition GetPhysicalDeviceProperties :=
  instance_accessor I.GetPhysicalDeviceProperties.
Definition GetInstanceProcAddr := instance_accessor I.GetInstanceProcAddr.
Definition GetDeviceProcAddr := device_accessor D.GetDeviceProcAddr.
Definition ResetCommandPool := device_accessor D.ResetCommandPool.
Definition AllocateCommandBuffers := device_accessor D.AllocateCommandBuffers.
Definition FreeCommandBuffers := device_accessor D.FreeCommandBuffers.
Definition BeginCommandBuffer := device_accessor D.BeginCommandBuffer.
Definition EndCommandBuffer := device_accessor D.EndCommandBuffer.
Definition ResetCommandBuffer := device_accessor D.ResetCommandBuffer.
Definition GetDeviceQueue := device_accessor D.GetDeviceQueue.
Definition GetDeviceQueue2 := device_accessor D.GetDeviceQueue2.
Definition QueueSubmit := device_accessor D.QueueSubmit.
Definition QueuePresentKHR := device_accessor D.QueuePresentKHR.
Definition CreateQueryPool := device_accessor D.CreateQueryPool.
Definition ResetQueryPoolEXT := device_accessor D.ResetQueryPoolEXT.
Definition GetQueryPoolResults := device_accessor D.GetQueryPoolResults.
Definition CmdWriteTimestamp := device_accessor D.CmdWriteTimestamp.
Definition CmdBeginDebugUtilsLabelEXT :=
  device_accessor D.CmdBeginDebugUtilsLabelEXT.
Definition CmdEndDebugUtilsLabelEXT :=
  device_accessor D.CmdEndDebugUtilsLabelEXT.
Definition CmdDebugMarkerBeginEXT := device_accessor D.CmdDebugMarkerBeginEXT.
Definition CmdDebugMarkerEndEXT := device_accessor D.CmdDebugMarkerEndEXT.

Definition IsDebugMarkerExtensionSupported (dispatchable_object : Handle)
    : list Instr :=
  let key := GetDispatchTableKey dispatchable_object in
  [ ReaderMutexLock;
    CHECK (λ T, Some (contains (device_supports_debug_marker_extension_ T) key));
    Return (λ T, VBool <$> device_supports_debug_marker_extension_ T !! key);
    ReaderMutexUnlock ].

Definition IsDebugUtilsExtensionSupported (dispatchable_object : Handle)
    : list Instr :=
  let key := GetDispatchTableKey dispatchable_object in
  [ ReaderMutexLock;
    CHECK (λ T, Some (contains (device_supports_debug_utils_extension_ T) key));
    Return (λ T, VBool <$> device_supports_debug_utils_extension_ T !! key);
    ReaderMutexUnlock ].

(** *** The accessors, indexed by the member they return *)

Inductive InstanceMember : Type :=
| MDestroyInstance
| MEnumerateDeviceExtensionProperties
| MGetPhysicalDeviceProperties
| MGetInstanceProcAddr.

Inductive DeviceMember : Type :=
| MDestroyDevice
| MGetDeviceProcAddr
| MResetCommandPool
| MAllocateCommandBuffers
| MFreeCommandBuffers
| MBeginCommandBuffer
| MEndCommandBuffer
| MResetCommandBuffer
| MGetDeviceQueue
| MGetDeviceQueue2
| MQueueSubmit
| MQueuePresentKHR
| MCreateQueryPool
| MResetQueryPoolEXT
| MGetQueryPoolResults
| MCmdWriteTimestamp
| MCmdBeginDebugUtilsLabelEXT
| MCmdEndDebugUtilsLabelEXT
| MCmdDebugMarkerBeginEXT
| MCmdDebugMarkerEndEXT.

(** The member function of [DispatchTable] that returns a given member. *)
Definition instance_lookup (f : InstanceMember) : Handle → list Instr :=
  match f with
  | MDestroyInstance => DestroyInstance
  | MEnumerateDeviceExtensionProperties => EnumerateDeviceExtensionProperties
  | MGetPhysicalDeviceProperties => GetPhysicalDeviceProperties
  | MGetInstanceProcAddr => GetInstanceProcAddr
  end.

Definition device_lookup (f : DeviceMember) : Handle → list Instr :=
  match f with
  | MDestroyDevice => DestroyDevice
  | MGetDeviceProcAddr => GetDeviceProcAddr
  | MResetCommandPool => ResetCommandPool
  | MAllocateCommandBuffers => AllocateCommandBuffers
  | MFreeCommandBuffers => FreeCommandBuffers
  | MBeginCommandBuffer => BeginCommandBuffer
  | MEndCommandBuffer => EndCommandBuffer
  | MResetCommandBuffer => ResetCommandBuffer
  | MGetDeviceQueue => GetDeviceQueue
  | MGetDeviceQueue2 => GetDeviceQueue2
  | MQueueSubmit => QueueSubmit
  | MQueuePresentKHR => QueuePresentKHR
  | MCreateQueryPool => CreateQueryPool
  | MResetQueryPoolEXT => ResetQueryPoolEXT
  | MGetQueryPoolResults => GetQueryPoolResults
  | MCmdWriteTimestamp => CmdWriteTimestamp
  | MCmdBeginDebugUtilsLabelEXT => CmdBeginDebugUtilsLabelEXT
  | MCmdEndDebugUtilsLabelEXT => CmdEndDebugUtilsLabelEXT
  | MCmdDebugMarkerBeginEXT => CmdDebugMarkerBeginEXT
  | MCmdDebugMarkerEndEXT => CmdDebugMarkerEndEXT
  end.

(** The member an accessor returns, and the name under which
    [CreateInstanceDispatchTable] or [CreateDeviceDispatchTable] asks the
    resolver for it. *)
Definition instance_member (f : InstanceMember) : I.t → Ptr :=
  match f with
  | MDestroyInstance => I.DestroyInstance
  | MEnumerateDeviceExtensionProperties => I.EnumerateDeviceExtensionProperties
  | MGetPhysicalDeviceProperties => I.GetPhysicalDeviceProperties
  | MGetInstanceProcAddr => I.GetInstanceProcAddr
  end.

Definition instance_member_name (f : InstanceMember) : string :=
  match f with
  | MDestroyInstance => "vkDestroyInstance"
  | MEnumerateDeviceExtensionProperties => "vkEnumerateDeviceExtensionProperties"
  | MGetPhysicalDeviceProperties => "vkGetPhysicalDeviceProperties"
  | MGetInstanceProcAddr => "vkGetInstanceProcAddr"
  end.

Definition device_member (f : DeviceMember) : D.t → Ptr :=
  match f with
  | MDestroyDevice => D.DestroyDevice
  | MGetDeviceProcAddr => D.GetDeviceProcAddr
  | MResetCommandPool => D.ResetCommandPool
  | MAllocateCommandBuffers => D.AllocateCommandBuffers
  | MFreeCommandBuffers => D.FreeCommandBuffers
  | MBeginCommandBuffer => D.BeginCommandBuffer
  | MEndCommandBuffer => D.EndCommandBuffer
  | MResetCommandBuffer => D.ResetCommandBuffer
  | MGetDeviceQueue => D.GetDeviceQueue
  | MGetDeviceQueue2 => D.GetDeviceQueue2
  | MQueueSubmit => D.QueueSubmit
  | MQueuePresentKHR => D.QueuePresentKHR
  | MCreateQueryPool => D.CreateQueryPool
  | MResetQueryPoolEXT => D.ResetQueryPoolEXT
  | MGetQueryPoolResults => D.GetQueryPoolResults
  | MCmdWriteTimestamp => D.CmdWriteTimestamp
  | MCmdBeginDebugUtilsLabelEXT => D.CmdBeginDebugUtilsLabelEXT
  | MCmdEndDebugUtilsLabelEXT => D.CmdEndDebugUtilsLabelEXT
  | MCmdDebugMarkerBeginEXT => D.CmdDebugMarkerBeginEXT
  | MCmdDebugMarkerEndEXT => D.CmdDebugMarkerEndEXT
  end.

Definition device_member_name (f : DeviceMember) : string :=
  match f with
  | MDestroyDevice => "vkDestroyDevice"
  | MGetDeviceProcAddr => "vkGetDeviceProcAddr"
  | MResetCommandPool => "vkResetCommandPool"
  | MAllocateCommandBuffers => "vkAllocateCommandBuffers"
  | MFreeCommandBuffers => "vkFreeCommandBuffers"
  | MBeginCommandBuffer => "vkBeginCommandBuffer"
  | MEndCommandBuffer => "vkEndCommandBuffer"
  | MResetCommandBuffer => "vkResetCommandBuffer"
  | MGetDeviceQueue => "vkGetDeviceQueue"
  | MGetDeviceQueue2 => "vkGetDeviceQueue2"
  | MQueueSubmit => "vkQueueSubmit"
  | MQueuePresentKHR => "vkQueuePresentKHR"
  | MCreateQueryPool => "vkCreateQueryPool"
  | MResetQueryPoolEXT => "vkResetQueryPoolEXT"
  | MGetQueryPoolResults => "vkGetQueryPoolResults"
  | MCmdWriteTimestamp => "vkCmdWriteTimestamp"
  | MCmdBeginDebugUtilsLabelEXT => "vkCmdBeginDebugUtilsLabelEXT"
  | MCmdEndDebugUtilsLabelEXT => "vkCmdEndDebugUtilsLabelEXT"
  | MCmdDebugMarkerBeginEXT => "vkCmdDebugMarkerBeginEXT"
  | MCmdDebugMarkerEndEXT => "vkCmdDebugMarkerEndEXT"
  end.

(** *** Calls and sequences of calls *)

Inductive Call : Type :=
| CreateInstance (instance : Handle) (next : Resolver)
| RemoveInstance (instance : Handle)
| CreateDevice (device : Handle) (next : Resolver)
| RemoveDevice (device : Handle)
| LookupInstance (f : InstanceMember) (dispatchable_object : Handle)
| LookupDevice (f : DeviceMember) (dispatchable_object : Handle)
| QueryDebugMarker (dispatchable_object : Handle)
| QueryDebugUtils (dispatchable_object : Handle).

Definition code_of (c : Call) : list Instr :=
  match c with
  | CreateInstance instance next => CreateInstanceDispatchTable instance next
  | RemoveInstance instance => RemoveInstanceDispatchTable instance
  | CreateDevice device next => CreateDeviceDispatchTable device next
  | RemoveDevice device => RemoveDeviceDispatchTable device
  | LookupInstance f obj => instance_lookup f obj
  | LookupDevice f obj => device_lookup f obj
  | QueryDebugMarker obj => IsDebugMarkerExtensionSupported obj
  | QueryDebugUtils obj => IsDebugUtilsExtensionSupported obj
  end.

(** Calls made one after the other; the first that does not return ends the
    sequence. *)
Fixpoint run (cs : list Call) (s : t) : Outcome t :=
  match cs with
  | [] => Done s
  | c :: cs' =>
      match call (code_of c) s with
      | Done (_, s') => run cs' s'
      | Fatal => Fatal
      | Blocked => Blocked
      end
  end.

(** The states a freshly constructed object gets into. *)
Definition reachable (s : t) : Prop := ∃ cs, run cs init = Done s.

(** [c] registers, or unregisters, the device table of [key]. *)
Definition creates_device (key : Key) (c : Call) : Prop :=
  match c with
  | CreateDevice device _ => GetDispatchTableKey device = key
  | _ => False
  end.

Definition creates_instance (key : Key) (c : Call) : Prop :=
  match c with
  | CreateInstance instance _ => GetDispatchTableKey instance = key
  | _ => False
  end.

Definition removes_device (key : Key) (c : Call) : Prop :=
  match c with
  | RemoveDevice device => GetDispatchTableKey device = key
  | _ => False
  end.

Definition removes_instance (key : Key) (c : Call) : Prop :=
  match c with
  | RemoveInstance instance => GetDispatchTableKey instance = key
  | _ => False
  end.

(** *** Threads *)

Record Thread : Type := BuildThread {
  pending : list Call;       (* the calls the thread has still to make *)
  code : list Instr;         (* what is left of the call it is in *)
  holds : Hold;              (* how it holds [mutex_] *)
  result : Value             (* the value its call is about to return *)
}.

Record Config : Type := BuildConfig {
  object : t;
  threads : list Thread
}.

(** One step of one thread: it enters its next call, or runs the next
    statement of the call it is in.  [None] is the death of the process. *)
Inductive step : Config → option Config → Prop :=
| step_call cfg i th c cs :
    threads cfg !! i = Some th →
    code th = [] →
    pending th = c :: cs →
    step cfg (Some
      {| object := object cfg;
         threads := <[i := {| pending := cs; code := code_of c;
                              holds := holds th; result := VVoid |}]> (threads cfg) |})
| step_instr cfg i th ins rest s' r' :
    threads cfg !! i = Some th →
    code th = ins :: rest →
    instr_step ins (object cfg) (result th) = Next s' r' →
    step cfg (Some
      {| object := s';
         threads := <[i := {| pending := pending th; code := rest;
                              holds := hold_after ins (holds th);
                              result := r' |}]> (threads cfg) |})
| step_abort cfg i th ins rest :
    threads cfg !! i = Some th →
    code th = ins :: rest →
    instr_step ins (object cfg) (result th) = Abort →
    step cfg None.

Inductive steps : Config → Config → Prop :=
| steps_refl cfg : steps cfg cfg
| steps_step cfg cfg' cfg'' :
    steps cfg cfg' → step cfg' (Some cfg'') → steps cfg cfg''.

(** The step of thread [i], when it has one that the process survives, and
    the run in which the threads step in the order [order]. *)
Definition thread_step (cfg : Config) (i : nat) : option Config :=
  match threads cfg !! i with
  | None => None
  | Some th =>
      match code th with
      | [] =>
          match pending th with
          | [] => None
          | c :: cs =>
              Some {| object := object cfg;
                      threads := <[i := {| pending := cs; code := code_of c;
                                           holds := holds th; result := VVoid |}]>
                                   (threads cfg) |}
          end
      | ins :: rest =>
          match instr_step ins (object cfg) (result th) with
          | Next s' r' =>
              Some {| object := s';
                      threads := <[i := {| pending := pending th; code := rest;
                                           holds := hold_after ins (holds th);
                                           result := r' |}]> (threads cfg) |}
          | _ => None
          end
      end
  end.

Fixpoint schedule (order : list nat) (cfg : Config) : option Config :=
  match order with
  | [] => Some cfg
  | i :: order' =>
      match thread_step cfg i with
      | Some cfg' => schedule order' cfg'
      | None => None
      end
  end.

(** Any number of threads, each with its own list of calls to make, around a
    freshly constructed object. *)
Definition initial (work : list (list Call)) : Config :=
  {| object := init;
     threads := (λ cs, {| pending := cs; code := []; holds := NoLock;
                          result := VVoid |}) <$> work |}.

Definition reachable_config (cfg : Config) : Prop :=
  ∃ work, steps (initial work) cfg.

End Methods.

(** *** Properties of the tables and of the code, used in the statements *)

(** The tables after a successful registration or removal. *)
Definition instance_registered (key : Key) (dt : I.t) : Tables → Tables :=
  set_instance_dispatch_table_ (insert key dt).

Definition instance_removed (key : Key) : Tables → Tables :=
  set_instance_dispatch_table_ (delete key).

Definition device_registered (key : Key) (dt : D.t) (T : Tables) : Tables :=
  set_device_supports_debug_marker_extension_ (insert key
    (bool_decide (D.CmdDebugMarkerBeginEXT dt ≠ nullptr)
     && bool_decide (D.CmdDebugMarkerEndEXT dt ≠ nullptr)))
  (set_device_supports_debug_utils_extension_ (insert key
    (bool_decide (D.CmdBeginDebugUtilsLabelEXT dt ≠ nullptr)
     && bool_decide (D.CmdEndDebugUtilsLabelEXT dt ≠ nullptr)))
  (set_device_dispatch_table_ (insert key dt) T)).

Definition device_removed (key : Key) (T : Tables) : Tables :=
  set_device_supports_debug_marker_extension_ (delete key)
  (set_device_supports_debug_utils_extension_ (delete key)
  (set_device_dispatch_table_ (delete key) T)).

Definition is_create_or_remove (c : Call) : bool :=
  match c with
  | CreateInstance _ _ | RemoveInstance _ | CreateDevice _ _ | RemoveDevice _ => true
  | _ => false
  end.


(** What a call made alone does to the tables and what it returns, or [None]
    when one of its [CHECK]s fails: the sequential reading of the member
    functions, proved below to be what running their statements gives. *)
Definition effect (mem : Memory) (c : Call) (T : Tables) : option (Value * Tables) :=
  match c with
  | CreateInstance instance next =>
      let key := GetDispatchTableKey mem instance in
      if contains (instance_dispatch_table_ T) key then None
      else Some (VVoid,
                 instance_registered key (resolved_instance_table instance next) T)
  | RemoveInstance instance =>
      let key := GetDispatchTableKey mem instance in
      if contains (instance_dispatch_table_ T) key
      then Some (VVoid, instance_removed key T) else None
  | CreateDevice device next =>
      let key := GetDispatchTableKey mem device in
      if contains (device_dispatch_table_ T) key
         || contains (device_supports_debug_utils_extension_ T) key
         || contains (device_supports_debug_marker_extension_ T) key
      then None
      else Some (VVoid,
                 device_registered key (resolved_device_table device next) T)
  | RemoveDevice device =>
      let key := GetDispatchTableKey mem device in
      if contains (device_dispatch_table_ T) key
         && contains (device_supports_debug_utils_extension_ T) key
         && contains (device_supports_debug_marker_extension_ T) key
      then Some (VVoid, device_removed key T) else None
  | LookupInstance f obj =>
      match instance_dispatch_table_ T !! GetDispatchTableKey mem obj with
      | Some dt =>
          if bool_decide (instance_member f dt ≠ nullptr)
          then Some (VPtr (instance_member f dt), T) else None
      | None => None
      end
  | LookupDevice f obj =>
      match device_dispatch_table_ T !! GetDispatchTableKey mem obj with
      | Some dt =>
          if bool_decide (device_member f dt ≠ nullptr)
          then Some (VPtr (device_member f dt), T) else None
      | None => None
      end
  | QueryDebugMarker obj =>
      match device_supports_debug_marker_extension_ T
              !! GetDispatchTableKey mem obj with
      | Some b => Some (VBool b, T)
      | None => None
      end
  | QueryDebugUtils obj =>
      match device_supports_debug_utils_extension_ T
              !! GetDispatchTableKey mem obj with
      | Some b => Some (VBool b, T)
      | None => None
      end
  end.

(** Whether a thread that calls [c] alone gets the lock. *)
Definition lock_available (c : Call) (m : Mutex.t) : bool :=
  if is_create_or_remove c then Mutex.is_free m else negb (Mutex.writer_held m).

(** The contract of the four writers: the key is absent from the table a
    [Create] fills, present in the table a [Remove] empties. *)
Definition precondition (mem : Memory) (c : Call) (T : Tables) : Prop :=
  match c with
  | CreateInstance instance _ =>
      instance_dispatch_table_ T !! GetDispatchTableKey mem instance = None
  | RemoveInstance instance =>
      is_Some (instance_dispatch_table_ T !! GetDispatchTableKey mem instance)
  | CreateDevice device _ =>
      device_dispatch_table_ T !! GetDispatchTableKey mem device = None
  | RemoveDevice device =>
      is_Some (device_dispatch_table_ T !! GetDispatchTableKey mem device)
  | _ => True
  end.



(** A capability flag is stored for exactly the keys of the device table. *)
Definition flags_match_entries (T : Tables) : Prop :=
  ∀ key : Key,
    (is_Some (device_supports_debug_utils_extension_ T !! key)
       ↔ is_Some (device_dispatch_table_ T !! key)) ∧
    (is_Some (device_supports_debug_marker_extension_ T !! key)
       ↔ is_Some (device_dispatch_table_ T !! key)).

(** The locking discipline of a piece of code run by a thread that holds the
    mutex as [h]: the maps are read under the lock, written under the
    exclusive lock, each lock taken is released, and nothing is held at the
    end. *)
Fixpoint disciplined (h : Hold) (c : list Instr) : bool :=
  match c with
  | [] => bool_decide (h = NoLock)
  | WriterMutexLock :: c' => bool_decide (h = NoLock) && disciplined Exclusive c'
  | WriterMutexUnlock :: c' => bool_decide (h = Exclusive) && disciplined NoLock c'
  | ReaderMutexLock :: c' => bool_decide (h = NoLock) && disciplined Shared c'
  | ReaderMutexUnlock :: c' => bool_decide (h = Shared) && disciplined NoLock c'
  | CHECK _ :: c' => bool_decide (h ≠ NoLock) && disciplined h c'
  | Assign _ :: c' => bool_decide (h = Exclusive) && disciplined h c'
  | Return _ :: c' => bool_decide (h ≠ NoLock) && disciplined h c'
  end.

(** The mode of the first lock a piece of code takes. *)
Fixpoint lock_mode (c : list Instr) : Hold :=
  match c with
  | [] => NoLock
  | WriterMutexLock :: _ => Exclusive
  | ReaderMutexLock :: _ => Shared
  | _ :: c' => lock_mode c'
  end.

(** *** The invariant of the interleaved runs *)

Definition count_holding (h : Hold) (ths : list Thread) : nat :=
  length (filter (λ th, holds th = h) ths).

(** The tables at the end of the critical section whose remaining statements
    are [c], or [None] when a [CHECK] in it fails. *)
Fixpoint section_end (c : list Instr) (T : Tables) : option Tables :=
  match c with
  | CHECK cond :: c' =>
      match cond T with
      | Some true => section_end c' T
      | _ => None
      end
  | Assign upd :: c' => section_end c' (upd T)
  | Return e :: c' =>
      match e T with
      | Some _ => section_end c' T
      | None => None
      end
  | _ => Some T
  end.

Definition restores (c : list Instr) (T : Tables) : Prop :=
  match section_end c T with
  | Some T' => flags_match_entries T'
  | None => True
  end.

(** What is left of a call inside its reader, or its writer, section. *)
Fixpoint reader_rest (c : list Instr) : bool :=
  match c with
  | [ReaderMutexUnlock] => true
  | CHECK _ :: c' | Return _ :: c' => reader_rest c'
  | _ => false
  end.

Fixpoint writer_rest (c : list Instr) : bool :=
  match c with
  | [WriterMutexUnlock] => true
  | CHECK _ :: c' | Assign _ :: c' => writer_rest c'
  | _ => false
  end.

Definition thread_ok (mem : Memory) (T : Tables) (th : Thread) : Prop :=
  match holds th with
  | NoLock => code th = [] ∨ ∃ c, code th = code_of mem c
  | Shared => reader_rest (code th) = true
  | Exclusive => writer_rest (code th) = true ∧ restores (code th) T
  end.

Record config_inv (mem : Memory) (cfg : Config) : Prop := BuildInv {
  inv_readers :
    Mutex.reader_count (mutex_ (object cfg)) = count_holding Shared (threads cfg);
  inv_writer :
    count_holding Exclusive (threads cfg)
      = if Mutex.writer_held (mutex_ (object cfg)) then 1 else 0;
  inv_exclusion :
    Mutex.writer_held (mutex_ (object cfg)) = true →
    Mutex.reader_count (mutex_ (object cfg)) = 0;
  inv_threads : Forall (thread_ok mem (tables (object cfg))) (threads cfg);
  inv_tables :
    Mutex.writer_held (mutex_ (object cfg)) = false →
    flags_match_entries (tables (object cfg))
}.

(** *** Further notions: targets, histories, what a caller sees *)

(** The table a call works on and the key it works with. *)
Inductive TableId : Type := InstanceTable | DeviceTable.

Definition target (mem : Memory) (c : Call) : TableId * Key :=
  match c with
  | CreateInstance instance _ | RemoveInstance instance =>
      (InstanceTable, GetDispatchTableKey mem instance)
  | LookupInstance _ obj => (InstanceTable, GetDispatchTableKey mem obj)
  | CreateDevice device _ | RemoveDevice device =>
      (DeviceTable, GetDispatchTableKey mem device)
  | LookupDevice _ obj | QueryDebugMarker obj | QueryDebugUtils obj =>
      (DeviceTable, GetDispatchTableKey mem obj)
  end.

(** What the caller sees of the outcome of a call. *)
Definition answer (o : Outcome (Value * t)) : Outcome Value :=
  match o with
  | Done (v, _) => Done v
  | Fatal => Fatal
  | Blocked => Blocked
  end.

(** The two flags [CreateDeviceDispatchTable] stores beside a table. *)
Definition supports_debug_utils (dt : D.t) : bool :=
  bool_decide (D.CmdBeginDebugUtilsLabelEXT dt ≠ nullptr)
  && bool_decide (D.CmdEndDebugUtilsLabelEXT dt ≠ nullptr).

Definition supports_debug_marker (dt : D.t) : bool :=
  bool_decide (D.CmdDebugMarkerBeginEXT dt ≠ nullptr)
  && bool_decide (D.CmdDebugMarkerEndEXT dt ≠ nullptr).

(** What a history of calls says the entry of [key] is: the table resolved by
    the last [Create] of that key, unless a [Remove] of the key came after. *)
Definition device_after (mem : Memory) (key : Key) (o : option D.t) (c : Call)
    : option D.t :=
  match c with
  | CreateDevice device next =>
      if decide (GetDispatchTableKey mem device = key)
      then Some (resolved_device_table device next) else o
  | RemoveDevice device =>
      if decide (GetDispatchTableKey mem device = key) then None else o
  | _ => o
  end.

Definition instance_after (mem : Memory) (key : Key) (o : option I.t) (c : Call)
    : option I.t :=
  match c with
  | CreateInstance instance next =>
      if decide (GetDispatchTableKey mem instance = key)
      then Some (resolved_instance_table instance next) else o
  | RemoveInstance instance =>
      if decide (GetDispatchTableKey mem instance = key) then None else o
  | _ => o
  end.

Definition device_history (mem : Memory) (key : Key) (cs : list Call)
    : option D.t :=
  fold_left (device_after mem key) cs None.

Definition instance_history (mem : Memory) (key : Key) (cs : list Call)
    : option I.t :=
  fold_left (instance_after mem key) cs None.

(** How many calls of a history are of a given kind. *)
Definition is_create_instance (c : Call) : bool :=
  match c with CreateInstance _ _ => true | _ => false end.

Definition is_remove_instance (c : Call) : bool :=
  match c with RemoveInstance _ => true | _ => false end.

Definition is_create_device (c : Call) : bool :=
  match c with CreateDevice _ _ => true | _ => false end.

Definition is_remove_device (c : Call) : bool :=
  match c with RemoveDevice _ => true | _ => false end.

Definition count_calls (kind : Call → bool) (cs : list Call) : nat :=
  length (filter (λ c, kind c = true) cs).

(** The rest [c] of a critical section evaluates no [flat_hash_map::at] on a
    missing key, on the tables [T] and on those its assignments lead to. *)
Fixpoint no_throw (c : list Instr) (T : Tables) : Prop :=
  match c with
  | CHECK cond :: c' =>
      match cond T with
      | Some true => no_throw c' T
      | Some false => True
      | None => False
      end
  | Assign upd :: c' => no_throw c' (upd T)
  | Return e :: c' => is_Some (e T) ∧ no_throw c' T
  | _ => True
  end.

End DispatchTable.

(** ** FramePointerValidator *)

Module FramePointerValidator.
Section GetFpoFunctions.

(** [orbit_grpc_protos::CodeBlock], generated from a protocol description that
    is not part of these sources. *)
Variable CodeBlock : Type.

(** The analysis of one binary of one bit width: it cannot be completed, or it
    tells of each code region whether it lacks the frame-pointer setup. *)
Variable analyse : string → bool → option (CodeBlock → bool).

(** Modelled from the spec: the body of [FramePointerValidator::GetFpoFunctions]
    is missing (the header declares it only).  The spec has it produce either
    the subset of the given regions determined to lack proper
    stack-frame-pointer setup, or no result when the analysis could not be
    completed. *)
Definition GetFpoFunctions (functions : list CodeBlock) (file_name : string)
    (is_64_bit : bool) : option (list CodeBlock) :=
  match analyse file_name is_64_bit with
  | None => None
  | Some lacks_frame_pointer =>
      Some (filter (λ f, lacks_frame_pointer f = true) functions)
  end.

End GetFpoFunctions.
End FramePointerValidator.

(** ** A concrete scenario, used to run the code

    An instance at address 16 and a device at address 512; the command buffer
    at address 520 was allocated from the device and starts with the same
    dispatch pointer.  The next layer has the debug-utils entry points and
    lacks the debug-marker ones. *)

Module Scenario.

Definition memory : Memory := λ a, (4096 + 8 * (a / 256))%N.

Definition instance : Handle := 16%N.
Definition device : Handle := 512%N.
Definition command_buffer : Handle := 520%N.
Definition other_device : Handle := 1024%N.

Definition next : Resolver := λ obj name,
  if bool_decide (name = "vkCmdDebugMarkerBeginEXT"
                  ∨ name = "vkCmdDebugMarkerEndEXT")
  then nullptr
  else (obj + N.of_nat (String.length name))%N.

(** The object once the device is registered, and once the instance is
    registered too. *)
Definition with_device : DispatchTable.t :=
  {| DispatchTable.tables :=
       DispatchTable.device_registered 4112
         (DispatchTable.resolved_device_table device next)
         DispatchTable.empty_tables;
     DispatchTable.mutex_ := Mutex.free |}.

Definition with_both : DispatchTable.t :=
  {| DispatchTable.tables :=
       DispatchTable.instance_registered 4096
         (DispatchTable.resolved_instance_table instance next)
         (DispatchTable.tables with_device);
     DispatchTable.mutex_ := Mutex.free |}.

(** The object once the device is removed again, and once another device is
    registered after that. *)
Definition with_instance : DispatchTable.t :=
  {| DispatchTable.tables :=
       DispatchTable.instance_registered 4096
         (DispatchTable.resolved_instance_table instance next)
         DispatchTable.empty_tables;
     DispatchTable.mutex_ := Mutex.free |}.

Definition with_other_device : DispatchTable.t :=
  {| DispatchTable.tables :=
       DispatchTable.device_registered 4128
         (DispatchTable.resolved_device_table other_device next)
         (DispatchTable.tables with_instance);
     DispatchTable.mutex_ := Mutex.free |}.

(** One thread has registered the device and is now inside
    [IsDebugUtilsExtensionSupported] on the command buffer; a second thread is
    about to enter [QueueSubmit] on it. *)
Definition two_readers : DispatchTable.Config :=
  {| DispatchTable.object :=
       {| DispatchTable.tables := DispatchTable.tables with_device;
          DispatchTable.mutex_ :=
            {| Mutex.writer_held := false; Mutex.reader_count := 1 |} |};
     DispatchTable.threads :=
       [ {| DispatchTable.pending := [];
            DispatchTable.code :=
              tail (DispatchTable.IsDebugUtilsExtensionSupported memory
                      command_buffer);
            DispatchTable.holds := DispatchTable.Shared;
            DispatchTable.result := DispatchTable.VVoid |};
         {| DispatchTable.pending := [];
            DispatchTable.code :=
              DispatchTable.QueueSubmit memory command_buffer;
            DispatchTable.holds := DispatchTable.NoLock;
            DispatchTable.result := DispatchTable.VVoid |} ] |}.

(** On the freshly constructed object, a thread has entered [QueueSubmit] on
    the device, which nobody registered. *)
Definition unregistered_reader : DispatchTable.Config :=
  {| DispatchTable.object :=
       {| DispatchTable.tables := DispatchTable.empty_tables;
          DispatchTable.mutex_ :=
            {| Mutex.writer_held := false; Mutex.reader_count := 1 |} |};
     DispatchTable.threads :=
       [ {| DispatchTable.pending := [];
            DispatchTable.code :=
              tail (DispatchTable.QueueSubmit memory device);
            DispatchTable.holds := DispatchTable.Shared;
            DispatchTable.result := DispatchTable.VVoid |} ] |}.

End Scenario.

(** * Proofs *)

Import DispatchTable.

(** ** What a call made alone does, in closed form *)

Lemma mutex_is_free_spec m : Mutex.is_free m = true ↔ m = Mutex.free.
Proof.
  destruct m as [[] [|n]]; cbn; split; intros H; try done; inversion H.
Qed.

Lemma reader_unlock_lock s :
  Mutex.writer_held (mutex_ s) = false →
  {| tables := tables s;
     mutex_ := {| Mutex.writer_held := false;
                  Mutex.reader_count := Mutex.reader_count (mutex_ s) |} |} = s.
Proof. destruct s as [T [w n]]; cbn; intros ->; reflexivity. Qed.

Ltac exec_simpl :=
  cbn [exec instr_step tables mutex_ mbind option_bind fmap option_fmap option_map
       Mutex.ReaderUnlock Mutex.WriterUnlock Mutex.reader_count Mutex.writer_held
       Nat.pred negb
       set_instance_dispatch_table_ set_device_dispatch_table_
       set_device_supports_debug_marker_extension_
       set_device_supports_debug_utils_extension_
       instance_dispatch_table_ device_dispatch_table_
       device_supports_debug_marker_extension_
       device_supports_debug_utils_extension_].

Lemma contains_true {V} (m : gmap Key V) key v :
  m !! key = Some v → contains m key = true.
Proof. intros H. unfold contains. rewrite bool_decide_true; eauto. Qed.

Lemma contains_false {V} (m : gmap Key V) key :
  m !! key = None → contains m key = false.
Proof.
  intros H. unfold contains. rewrite bool_decide_false; [done|].
  rewrite H. intros [? ?]; done.
Qed.

Lemma contains_spec {V} (m : gmap Key V) key :
  contains m key = true ↔ is_Some (m !! key).
Proof. unfold contains. apply bool_decide_eq_true. Qed.

Lemma call_device_accessor mem member obj s :
  call (device_accessor mem member obj) s =
    if Mutex.writer_held (mutex_ s) then Blocked
    else match device_dispatch_table_ (tables s) !! GetDispatchTableKey mem obj with
         | Some dt =>
             if bool_decide (member dt ≠ nullptr)
             then Done (VPtr (member dt), s) else Fatal
         | None => Fatal
         end.
Proof.
  unfold call, device_accessor.
  exec_simpl. unfold Mutex.ReaderLock.
  destruct (Mutex.writer_held (mutex_ s)) eqn:Hw; [reflexivity|].
  exec_simpl.
  destruct (device_dispatch_table_ (tables s) !! GetDispatchTableKey mem obj)
    as [dt|] eqn:Hk.
  - rewrite (contains_true _ _ _ Hk). exec_simpl. rewrite !Hk. exec_simpl.
    destruct (bool_decide (member dt ≠ nullptr)); [|reflexivity].
    exec_simpl. rewrite !Hk. exec_simpl.
    rewrite reader_unlock_lock by done. reflexivity.
  - rewrite (contains_false _ _ Hk). reflexivity.
Qed.

Lemma call_instance_accessor mem member obj s :
  call (instance_accessor mem member obj) s =
    if Mutex.writer_held (mutex_ s) then Blocked
    else match instance_dispatch_table_ (tables s) !! GetDispatchTableKey mem obj with
         | Some dt =>
             if bool_decide (member dt ≠ nullptr)
             then Done (VPtr (member dt), s) else Fatal
         | None => Fatal
         end.
Proof.
  unfold call, instance_accessor.
  exec_simpl. unfold Mutex.ReaderLock.
  destruct (Mutex.writer_held (mutex_ s)) eqn:Hw; [reflexivity|].
  exec_simpl.
  destruct (instance_dispatch_table_ (tables s) !! GetDispatchTableKey mem obj)
    as [dt|] eqn:Hk.
  - rewrite (contains_true _ _ _ Hk). exec_simpl. rewrite !Hk. exec_simpl.
    destruct (bool_decide (member dt ≠ nullptr)); [|reflexivity].
    exec_simpl. rewrite !Hk. exec_simpl.
    rewrite reader_unlock_lock by done. reflexivity.
  - rewrite (contains_false _ _ Hk). reflexivity.
Qed.

Lemma call_IsDebugMarkerExtensionSupported mem obj s :
  call (IsDebugMarkerExtensionSupported mem obj) s =
    if Mutex.writer_held (mutex_ s) then Blocked
    else match device_supports_debug_marker_extension_ (tables s)
                 !! GetDispatchTableKey mem obj with
         | Some b => Done (VBool b, s)
         | None => Fatal
         end.
Proof.
  unfold call, IsDebugMarkerExtensionSupported.
  exec_simpl. unfold Mutex.ReaderLock.
  destruct (Mutex.writer_held (mutex_ s)) eqn:Hw; [reflexivity|].
  exec_simpl.
  destruct (device_supports_debug_marker_extension_ (tables s)
              !! GetDispatchTableKey mem obj) as [b|] eqn:Hk.
  - rewrite (contains_true _ _ _ Hk). exec_simpl. rewrite !Hk. exec_simpl.
    rewrite reader_unlock_lock by done. reflexivity.
  - rewrite (contains_false _ _ Hk). reflexivity.
Qed.

Lemma call_IsDebugUtilsExtensionSupported mem obj s :
  call (IsDebugUtilsExtensionSupported mem obj) s =
    if Mutex.writer_held (mutex_ s) then Blocked
    else match device_supports_debug_utils_extension_ (tables s)
                 !! GetDispatchTableKey mem obj with
         | Some b => Done (VBool b, s)
         | None => Fatal
         end.
Proof.
  unfold call, IsDebugUtilsExtensionSupported.
  exec_simpl. unfold Mutex.ReaderLock.
  destruct (Mutex.writer_held (mutex_ s)) eqn:Hw; [reflexivity|].
  exec_simpl.
  destruct (device_supports_debug_utils_extension_ (tables s)
              !! GetDispatchTableKey mem obj) as [b|] eqn:Hk.
  - rewrite (contains_true _ _ _ Hk). exec_simpl. rewrite !Hk. exec_simpl.
    rewrite reader_unlock_lock by done. reflexivity.
  - rewrite (contains_false _ _ Hk). reflexivity.
Qed.

Lemma writer_lock_is_free m :
  Mutex.WriterLock m =
    if Mutex.is_free m
    then Some {| Mutex.writer_held := true; Mutex.reader_count := 0 |} else None.
Proof. destruct m as [[] [|n]]; reflexivity. Qed.

Lemma call_CreateInstanceDispatchTable mem instance next s :
  call (CreateInstanceDispatchTable mem instance next) s =
    if Mutex.is_free (mutex_ s) then
      if contains (instance_dispatch_table_ (tables s))
           (GetDispatchTableKey mem instance)
      then Fatal
      else Done (VVoid,
                 {| tables := instance_registered (GetDispatchTableKey mem instance)
                                (resolved_instance_table instance next) (tables s);
                    mutex_ := Mutex.free |})
    else Blocked.
Proof.
  unfold call, CreateInstanceDispatchTable.
  exec_simpl. rewrite writer_lock_is_free.
  destruct (Mutex.is_free (mutex_ s)); [|reflexivity].
  exec_simpl.
  destruct (contains _ _); reflexivity.
Qed.

Lemma call_RemoveInstanceDispatchTable mem instance s :
  call (RemoveInstanceDispatchTable mem instance) s =
    if Mutex.is_free (mutex_ s) then
      if contains (instance_dispatch_table_ (tables s))
           (GetDispatchTableKey mem instance)
      then Done (VVoid,
                 {| tables := instance_removed (GetDispatchTableKey mem instance)
                                (tables s);
                    mutex_ := Mutex.free |})
      else Fatal
    else Blocked.
Proof.
  unfold call, RemoveInstanceDispatchTable.
  exec_simpl. rewrite writer_lock_is_free.
  destruct (Mutex.is_free (mutex_ s)); [|reflexivity].
  exec_simpl.
  destruct (contains _ _); reflexivity.
Qed.

Lemma call_CreateDeviceDispatchTable mem device next s :
  call (CreateDeviceDispatchTable mem device next) s =
    if Mutex.is_free (mutex_ s) then
      if contains (device_dispatch_table_ (tables s))
           (GetDispatchTableKey mem device)
         || contains (device_supports_debug_utils_extension_ (tables s))
              (GetDispatchTableKey mem device)
         || contains (device_supports_debug_marker_extension_ (tables s))
              (GetDispatchTableKey mem device)
      then Fatal
      else Done (VVoid,
                 {| tables := device_registered (GetDispatchTableKey mem device)
                                (resolved_device_table device next) (tables s);
                    mutex_ := Mutex.free |})
    else Blocked.
Proof.
  unfold call, CreateDeviceDispatchTable.
  exec_simpl. rewrite writer_lock_is_free.
  destruct (Mutex.is_free (mutex_ s)); [|reflexivity].
  exec_simpl.
  destruct (contains (device_dispatch_table_ _) _); [reflexivity|].
  exec_simpl.
  destruct (contains (device_supports_debug_utils_extension_ _) _); [reflexivity|].
  exec_simpl.
  destruct (contains (device_supports_debug_marker_extension_ _) _); reflexivity.
Qed.

Lemma call_RemoveDeviceDispatchTable mem device s :
  call (RemoveDeviceDispatchTable mem device) s =
    if Mutex.is_free (mutex_ s) then
      if contains (device_dispatch_table_ (tables s))
           (GetDispatchTableKey mem device)
         && contains (device_supports_debug_utils_extension_ (tables s))
              (GetDispatchTableKey mem device)
         && contains (device_supports_debug_marker_extension_ (tables s))
              (GetDispatchTableKey mem device)
      then Done (VVoid,
                 {| tables := device_removed (GetDispatchTableKey mem device)
                                (tables s);
                    mutex_ := Mutex.free |})
      else Fatal
    else Blocked.
Proof.
  unfold call, RemoveDeviceDispatchTable.
  exec_simpl. rewrite writer_lock_is_free.
  destruct (Mutex.is_free (mutex_ s)); [|reflexivity].
  exec_simpl.
  destruct (contains (device_dispatch_table_ _) _); [|reflexivity].
  exec_simpl.
  destruct (contains (device_supports_debug_utils_extension_ _) _); [|reflexivity].
  exec_simpl.
  destruct (contains (device_supports_debug_marker_extension_ _) _); reflexivity.
Qed.

Lemma instance_lookup_accessor mem f :
  instance_lookup mem f = instance_accessor mem (instance_member f).
Proof. destruct f; reflexivity. Qed.

Lemma device_lookup_accessor mem f :
  device_lookup mem f = device_accessor mem (device_member f).
Proof. destruct f; reflexivity. Qed.

Lemma instance_member_resolved f instance next :
  instance_member f (resolved_instance_table instance next)
    = next instance (instance_member_name f).
Proof. destruct f; reflexivity. Qed.

Lemma device_member_resolved f device next :
  device_member f (resolved_device_table device next)
    = next device (device_member_name f).
Proof. destruct f; reflexivity. Qed.

(** Running the statements of a call alone is its [effect] on the tables,
    provided the thread gets the lock; the mutex is as before afterwards. *)
Lemma call_code_of mem c s :
  call (code_of mem c) s =
    if lock_available c (mutex_ s) then
      match effect mem c (tables s) with
      | Some (v, T') => Done (v, {| tables := T'; mutex_ := mutex_ s |})
      | None => Fatal
      end
    else Blocked.
Proof.
  assert (Hfree : Mutex.is_free (mutex_ s) = true → Mutex.free = mutex_ s).
  { intros H. symmetry. by apply mutex_is_free_spec. }
  assert (Heta : {| tables := tables s; mutex_ := mutex_ s |} = s)
    by (destruct s; reflexivity).
  destruct c as [instance next|instance|device next|device|f obj|f obj|obj|obj];
    cbn [code_of effect lock_available is_create_or_remove].
  - rewrite call_CreateInstanceDispatchTable.
    destruct (Mutex.is_free (mutex_ s)) eqn:Hm; [|reflexivity].
    rewrite (Hfree eq_refl). destruct (contains _ _); reflexivity.
  - rewrite call_RemoveInstanceDispatchTable.
    destruct (Mutex.is_free (mutex_ s)) eqn:Hm; [|reflexivity].
    rewrite (Hfree eq_refl). destruct (contains _ _); reflexivity.
  - rewrite call_CreateDeviceDispatchTable.
    destruct (Mutex.is_free (mutex_ s)) eqn:Hm; [|reflexivity].
    rewrite (Hfree eq_refl). destruct (_ || _); reflexivity.
  - rewrite call_RemoveDeviceDispatchTable.
    destruct (Mutex.is_free (mutex_ s)) eqn:Hm; [|reflexivity].
    rewrite (Hfree eq_refl). destruct (_ && _); reflexivity.
  - rewrite instance_lookup_accessor, call_instance_accessor.
    destruct (Mutex.writer_held (mutex_ s)); [reflexivity|]. cbn [negb].
    destruct (_ !! _) as [dt|]; [|reflexivity].
    destruct (bool_decide _); [|reflexivity]. by rewrite Heta.
  - rewrite device_lookup_accessor, call_device_accessor.
    destruct (Mutex.writer_held (mutex_ s)); [reflexivity|]. cbn [negb].
    destruct (_ !! _) as [dt|]; [|reflexivity].
    destruct (bool_decide _); [|reflexivity]. by rewrite Heta.
  - rewrite call_IsDebugMarkerExtensionSupported.
    destruct (Mutex.writer_held (mutex_ s)); [reflexivity|]. cbn [negb].
    destruct (_ !! _) as [b|]; [|reflexivity]. by rewrite Heta.
  - rewrite call_IsDebugUtilsExtensionSupported.
    destruct (Mutex.writer_held (mutex_ s)); [reflexivity|]. cbn [negb].
    destruct (_ !! _) as [b|]; [|reflexivity]. by rewrite Heta.
Qed.

Lemma call_done mem c s v s' :
  call (code_of mem c) s = Done (v, s') →
  lock_available c (mutex_ s) = true ∧
  effect mem c (tables s) = Some (v, tables s') ∧
  mutex_ s' = mutex_ s.
Proof.
  rewrite call_code_of.
  destruct (lock_available c (mutex_ s)); [|done].
  destruct (effect mem c (tables s)) as [[v0 T']|]; [|done].
  intros [= <- <-]. done.
Qed.

Lemma run_cons_done mem c cs s s2 :
  run mem (c :: cs) s = Done s2 →
  ∃ v s1, call (code_of mem c) s = Done (v, s1) ∧ run mem cs s1 = Done s2.
Proof.
  cbn [run]. destruct (call (code_of mem c) s) as [[v s1]| |]; [|done..].
  eauto.
Qed.

Lemma run_mutex mem cs : ∀ s s',
  run mem cs s = Done s' → mutex_ s' = mutex_ s.
Proof.
  induction cs as [|c cs IH]; intros s s' H.
  - by injection H as <-.
  - apply run_cons_done in H as (v & s1 & Hc & Hr).
    apply call_done in Hc as (_ & _ & Hm). rewrite <- Hm. by apply IH.
Qed.

(** *** The entry and the flags of a key change only through the [Create] and
    the [Remove] of that key *)

Ltac effect_cases c H :=
  destruct c as [instance next|instance|device next|device|f obj|f obj|obj|obj];
  cbn [effect] in H;
  repeat match type of H with
    | (if ?b then _ else _) = _ => destruct b eqn:?; [|try discriminate H]
    | (if ?b then _ else _) = _ => destruct b eqn:?; [try discriminate H|]
    | match ?o with Some _ => _ | None => _ end = _ =>
        destruct o eqn:?; [|try discriminate H]
    end;
  try discriminate H;
  try (injection H as <- <-).

Lemma effect_device_other mem c T v T' key :
  effect mem c T = Some (v, T') →
  ¬ creates_device mem key c → ¬ removes_device mem key c →
  device_dispatch_table_ T' !! key = device_dispatch_table_ T !! key ∧
  device_supports_debug_utils_extension_ T' !! key
    = device_supports_debug_utils_extension_ T !! key ∧
  device_supports_debug_marker_extension_ T' !! key
    = device_supports_debug_marker_extension_ T !! key.
Proof.
  intros H Hc Hr. effect_cases c H; cbn in *; try done.
  - rewrite !lookup_insert_ne by done. done.
  - rewrite !lookup_delete_ne by done. done.
Qed.

Lemma effect_instance_other mem c T v T' key :
  effect mem c T = Some (v, T') →
  ¬ creates_instance mem key c → ¬ removes_instance mem key c →
  instance_dispatch_table_ T' !! key = instance_dispatch_table_ T !! key.
Proof.
  intros H Hc Hr. effect_cases c H; cbn in *; try done.
  - rewrite !lookup_insert_ne by done. done.
  - rewrite !lookup_delete_ne by done. done.
Qed.

Lemma effect_create_device_fresh mem device next T v T' :
  effect mem (CreateDevice device next) T = Some (v, T') →
  device_dispatch_table_ T !! GetDispatchTableKey mem device = None.
Proof.
  cbn [effect]. intros H.
  destruct (device_dispatch_table_ T !! GetDispatchTableKey mem device)
    as [dt|] eqn:Hk; [|done].
  rewrite (contains_true _ _ _ Hk) in H. done.
Qed.

Lemma effect_create_instance_fresh mem instance next T v T' :
  effect mem (CreateInstance instance next) T = Some (v, T') →
  instance_dispatch_table_ T !! GetDispatchTableKey mem instance = None.
Proof.
  cbn [effect]. intros H.
  destruct (instance_dispatch_table_ T !! GetDispatchTableKey mem instance)
    as [dt|] eqn:Hk; [|done].
  rewrite (contains_true _ _ _ Hk) in H. done.
Qed.

Lemma effect_remove_device_present mem device T v T' :
  effect mem (RemoveDevice device) T = Some (v, T') →
  is_Some (device_dispatch_table_ T !! GetDispatchTableKey mem device).
Proof.
  cbn [effect]. intros H. apply contains_spec.
  destruct (contains (device_dispatch_table_ T) _); done.
Qed.

(** A registered device keeps its entry and its flags through every sequence
    of calls that return, as long as none of them removes it. *)
Lemma run_device_entry_kept mem key cs : ∀ s s' dt,
  run mem cs s = Done s' →
  Forall (λ c, ¬ removes_device mem key c) cs →
  device_dispatch_table_ (tables s) !! key = Some dt →
  device_dispatch_table_ (tables s') !! key = Some dt ∧
  device_supports_debug_utils_extension_ (tables s') !! key
    = device_supports_debug_utils_extension_ (tables s) !! key ∧
  device_supports_debug_marker_extension_ (tables s') !! key
    = device_supports_debug_marker_extension_ (tables s) !! key.
Proof.
  induction cs as [|c cs IH]; intros s s' dt Hrun Hall Hk.
  - injection Hrun as <-. done.
  - apply run_cons_done in Hrun as (v & s1 & Hc & Hr).
    apply Forall_cons in Hall as [Hc1 Hall].
    apply call_done in Hc as (_ & He & _).
    assert (Hnc : ¬ creates_device mem key c).
    { destruct c; cbn [creates_device]; try tauto. intros <-.
      apply effect_create_device_fresh in He.
      unfold GetDispatchTableKey in *. congruence. }
    destruct (effect_device_other _ _ _ _ _ key He Hnc Hc1) as (E1 & E2 & E3).
    rewrite <- E1 in Hk. destruct (IH _ _ _ Hr Hall Hk) as (F1 & F2 & F3).
    rewrite F2, F3, E2, E3. done.
Qed.

Lemma run_instance_entry_kept mem key cs : ∀ s s' dt,
  run mem cs s = Done s' →
  Forall (λ c, ¬ removes_instance mem key c) cs →
  instance_dispatch_table_ (tables s) !! key = Some dt →
  instance_dispatch_table_ (tables s') !! key = Some dt.
Proof.
  induction cs as [|c cs IH]; intros s s' dt Hrun Hall Hk.
  - injection Hrun as <-. done.
  - apply run_cons_done in Hrun as (v & s1 & Hc & Hr).
    apply Forall_cons in Hall as [Hc1 Hall].
    apply call_done in Hc as (_ & He & _).
    assert (Hnc : ¬ creates_instance mem key c).
    { destruct c; cbn [creates_instance]; try tauto. intros <-.
      apply effect_create_instance_fresh in He.
      unfold GetDispatchTableKey in *. congruence. }
    pose proof (effect_instance_other _ _ _ _ _ key He Hnc Hc1) as E1.
    rewrite <- E1 in Hk. eauto.
Qed.

(** A key with no entry and no flags stays so through every sequence of calls
    that return, as long as none of them registers it. *)
Lemma run_device_absent_kept mem key cs : ∀ s s',
  run mem cs s = Done s' →
  Forall (λ c, ¬ creates_device mem key c) cs →
  device_dispatch_table_ (tables s) !! key = None →
  device_supports_debug_utils_extension_ (tables s) !! key = None →
  device_supports_debug_marker_extension_ (tables s) !! key = None →
  device_dispatch_table_ (tables s') !! key = None ∧
  device_supports_debug_utils_extension_ (tables s') !! key = None ∧
  device_supports_debug_marker_extension_ (tables s') !! key = None.
Proof.
  induction cs as [|c cs IH]; intros s s' Hrun Hall Hd Hu Hm.
  - injection Hrun as <-. done.
  - apply run_cons_done in Hrun as (v & s1 & Hc & Hr).
    apply Forall_cons in Hall as [Hc1 Hall].
    apply call_done in Hc as (_ & He & _).
    assert (Hnr : ¬ removes_device mem key c).
    { destruct c; cbn [removes_device]; try tauto. intros <-.
      apply effect_remove_device_present in He as [? ?].
      unfold GetDispatchTableKey in *. congruence. }
    destruct (effect_device_other _ _ _ _ _ key He Hc1 Hnr) as (E1 & E2 & E3).
    apply (IH _ _ Hr Hall); congruence.
Qed.

(** The state right after a registration or a removal that returned. *)
Lemma create_device_done mem device next s v s1 :
  call (CreateDeviceDispatchTable mem device next) s = Done (v, s1) →
  v = VVoid ∧ mutex_ s1 = Mutex.free ∧
  device_dispatch_table_ (tables s) !! GetDispatchTableKey mem device = None ∧
  tables s1 = device_registered (GetDispatchTableKey mem device)
                (resolved_device_table device next) (tables s).
Proof.
  intros H.
  pose proof (call_done mem (CreateDevice device next) s v s1 H) as (Hl & He & Hm).
  pose proof (effect_create_device_fresh _ _ _ _ _ _ He) as Hfresh.
  cbn [lock_available is_create_or_remove] in Hl.
  apply mutex_is_free_spec in Hl. rewrite Hl in Hm.
  cbn [effect] in He. destruct (_ || _); [done|]. by injection He as <- <-.
Qed.

Lemma create_instance_done mem instance next s v s1 :
  call (CreateInstanceDispatchTable mem instance next) s = Done (v, s1) →
  v = VVoid ∧ mutex_ s1 = Mutex.free ∧
  instance_dispatch_table_ (tables s) !! GetDispatchTableKey mem instance = None ∧
  tables s1 = instance_registered (GetDispatchTableKey mem instance)
                (resolved_instance_table instance next) (tables s).
Proof.
  intros H.
  pose proof (call_done mem (CreateInstance instance next) s v s1 H)
    as (Hl & He & Hm).
  pose proof (effect_create_instance_fresh _ _ _ _ _ _ He) as Hfresh.
  cbn [lock_available is_create_or_remove] in Hl.
  apply mutex_is_free_spec in Hl. rewrite Hl in Hm.
  cbn [effect] in He. destruct (contains _ _); [done|]. by injection He as <- <-.
Qed.

Lemma remove_device_done mem device s v s1 :
  call (RemoveDeviceDispatchTable mem device) s = Done (v, s1) →
  v = VVoid ∧ mutex_ s1 = Mutex.free ∧
  is_Some (device_dispatch_table_ (tables s) !! GetDispatchTableKey mem device) ∧
  tables s1 = device_removed (GetDispatchTableKey mem device) (tables s).
Proof.
  intros H.
  pose proof (call_done mem (RemoveDevice device) s v s1 H) as (Hl & He & Hm).
  pose proof (effect_remove_device_present _ _ _ _ _ He) as Hpresent.
  cbn [lock_available is_create_or_remove] in Hl.
  apply mutex_is_free_spec in Hl. rewrite Hl in Hm.
  cbn [effect] in He. destruct (_ && _); [|done]. by injection He as <- <-.
Qed.

Lemma device_registered_lookup key dt T :
  device_dispatch_table_ (device_registered key dt T) !! key = Some dt ∧
  device_supports_debug_utils_extension_ (device_registered key dt T) !! key
    = Some (bool_decide (D.CmdBeginDebugUtilsLabelEXT dt ≠ nullptr)
            && bool_decide (D.CmdEndDebugUtilsLabelEXT dt ≠ nullptr)) ∧
  device_supports_debug_marker_extension_ (device_registered key dt T) !! key
    = Some (bool_decide (D.CmdDebugMarkerBeginEXT dt ≠ nullptr)
            && bool_decide (D.CmdDebugMarkerEndEXT dt ≠ nullptr)).
Proof. cbn. by rewrite !lookup_insert_eq. Qed.

Lemma device_removed_lookup key T :
  device_dispatch_table_ (device_removed key T) !! key = None ∧
  device_supports_debug_utils_extension_ (device_removed key T) !! key = None ∧
  device_supports_debug_marker_extension_ (device_removed key T) !! key = None.
Proof. cbn. by rewrite !lookup_delete_eq. Qed.

Lemma both_non_null (p q : Ptr) :
  bool_decide (p ≠ nullptr) && bool_decide (q ≠ nullptr) = true
  ↔ p ≠ nullptr ∧ q ≠ nullptr.
Proof. rewrite andb_true_iff, !bool_decide_eq_true. done. Qed.

(** The entry and the flags of a device, during its registration's lifetime. *)
Lemma registered_device_state mem s device next v s1 cs s2 :
  call (CreateDeviceDispatchTable mem device next) s = Done (v, s1) →
  run mem cs s1 = Done s2 →
  Forall (λ c, ¬ removes_device mem (GetDispatchTableKey mem device) c) cs →
  let key := GetDispatchTableKey mem device in
  let dt := resolved_device_table device next in
  mutex_ s2 = Mutex.free ∧
  device_dispatch_table_ (tables s2) !! key = Some dt ∧
  device_supports_debug_utils_extension_ (tables s2) !! key
    = Some (bool_decide (D.CmdBeginDebugUtilsLabelEXT dt ≠ nullptr)
            && bool_decide (D.CmdEndDebugUtilsLabelEXT dt ≠ nullptr)) ∧
  device_supports_debug_marker_extension_ (tables s2) !! key
    = Some (bool_decide (D.CmdDebugMarkerBeginEXT dt ≠ nullptr)
            && bool_decide (D.CmdDebugMarkerEndEXT dt ≠ nullptr)).
Proof.
  intros Hc Hr Hall key dt. subst key dt.
  apply create_device_done in Hc as (_ & Hm & _ & HT).
  pose proof (device_registered_lookup (GetDispatchTableKey mem device)
                (resolved_device_table device next) (tables s)) as (L1 & L2 & L3).
  rewrite <- HT in L1, L2, L3.
  destruct (run_device_entry_kept _ _ _ _ _ _ Hr Hall L1) as (K1 & K2 & K3).
  rewrite (run_mutex _ _ _ _ Hr), K2, K3. done.
Qed.

(** C1: after [CreateDeviceDispatchTable] has registered a device, and for as
    long as the device is not removed, [IsDebugUtilsExtensionSupported] on any
    object with the device's key returns true exactly when the resolver gave
    non-null pointers for both vkCmdBeginDebugUtilsLabelEXT and
    vkCmdEndDebugUtilsLabelEXT at registration, and
    [IsDebugMarkerExtensionSupported] returns true exactly when it gave
    non-null pointers for both vkCmdDebugMarkerBeginEXT and
    vkCmdDebugMarkerEndEXT; the calls made in between do not change the
    answers. *)
Theorem capability_flags_derivation mem s device next v s1 cs s2 obj :
  call (CreateDeviceDispatchTable mem device next) s = Done (v, s1) →
  run mem cs s1 = Done s2 →
  Forall (λ c, ¬ removes_device mem (GetDispatchTableKey mem device) c) cs →
  GetDispatchTableKey mem obj = GetDispatchTableKey mem device →
  ∃ utils marker : bool,
    call (IsDebugUtilsExtensionSupported mem obj) s2 = Done (VBool utils, s2) ∧
    call (IsDebugMarkerExtensionSupported mem obj) s2 = Done (VBool marker, s2) ∧
    (utils = true ↔
       next device "vkCmdBeginDebugUtilsLabelEXT" ≠ nullptr ∧
       next device "vkCmdEndDebugUtilsLabelEXT" ≠ nullptr) ∧
    (marker = true ↔
       next device "vkCmdDebugMarkerBeginEXT" ≠ nullptr ∧
       next device "vkCmdDebugMarkerEndEXT" ≠ nullptr).
Proof.
  intros Hc Hr Hall Hkey.
  destruct (registered_device_state _ _ _ _ _ _ _ _ Hc Hr Hall)
    as (Hm & _ & Hu & Hk).
  eexists _, _. 
  rewrite call_IsDebugUtilsExtensionSupported, call_IsDebugMarkerExtensionSupported.
  rewrite Hm, Hkey, Hu, Hk. cbn [Mutex.writer_held Mutex.free].
  split; [reflexivity|]. split; [reflexivity|].
  split; apply both_non_null.
Qed.

Lemma capability_flags_derivation_witness :
  ∃ utils marker : bool,
    call (IsDebugUtilsExtensionSupported Scenario.memory Scenario.command_buffer)
         Scenario.with_both = Done (VBool utils, Scenario.with_both) ∧
    call (IsDebugMarkerExtensionSupported Scenario.memory Scenario.command_buffer)
         Scenario.with_both = Done (VBool marker, Scenario.with_both) ∧
    (utils = true ↔
       Scenario.next Scenario.device "vkCmdBeginDebugUtilsLabelEXT" ≠ nullptr ∧
       Scenario.next Scenario.device "vkCmdEndDebugUtilsLabelEXT" ≠ nullptr) ∧
    (marker = true ↔
       Scenario.next Scenario.device "vkCmdDebugMarkerBeginEXT" ≠ nullptr ∧
       Scenario.next Scenario.device "vkCmdDebugMarkerEndEXT" ≠ nullptr).
Proof.
  apply (capability_flags_derivation Scenario.memory init Scenario.device
           Scenario.next VVoid Scenario.with_device
           [CreateInstance Scenario.instance Scenario.next;
            LookupDevice MQueueSubmit Scenario.command_buffer]).
  - vm_compute. reflexivity.
  - vm_compute. reflexivity.
  - repeat constructor; cbn; tauto.
  - reflexivity.
Defined.

(** The entry of an instance, during its registration's lifetime. *)
Lemma registered_instance_state mem s instance next v s1 cs s2 :
  call (CreateInstanceDispatchTable mem instance next) s = Done (v, s1) →
  run mem cs s1 = Done s2 →
  Forall (λ c, ¬ removes_instance mem (GetDispatchTableKey mem instance) c) cs →
  mutex_ s2 = Mutex.free ∧
  instance_dispatch_table_ (tables s2) !! GetDispatchTableKey mem instance
    = Some (resolved_instance_table instance next).
Proof.
  intros Hc Hr Hall.
  apply create_instance_done in Hc as (_ & Hm & _ & HT).
  assert (L1 : instance_dispatch_table_ (tables s1)
                 !! GetDispatchTableKey mem instance
               = Some (resolved_instance_table instance next)).
  { rewrite HT. cbn. by rewrite lookup_insert_eq. }
  rewrite (run_mutex _ _ _ _ Hr). eauto using run_instance_entry_kept.
Qed.

(** C2 (as amended): after [CreateInstanceDispatchTable] or
    [CreateDeviceDispatchTable] has registered an object, and for as long as
    it is not removed, each accessor called on an object with the same key
    returns exactly the pointer the resolver produced for its member when that
    pointer is non-null, and dies on its [CHECK] when the pointer is null. *)
Theorem lookup_roundtrip mem :
  (∀ s device next v s1 cs s2 obj f,
     call (CreateDeviceDispatchTable mem device next) s = Done (v, s1) →
     run mem cs s1 = Done s2 →
     Forall (λ c, ¬ removes_device mem (GetDispatchTableKey mem device) c) cs →
     GetDispatchTableKey mem obj = GetDispatchTableKey mem device →
     call (device_lookup mem f obj) s2 =
       if bool_decide (next device (device_member_name f) ≠ nullptr)
       then Done (VPtr (next device (device_member_name f)), s2)
       else Fatal) ∧
  (∀ s instance next v s1 cs s2 obj f,
     call (CreateInstanceDispatchTable mem instance next) s = Done (v, s1) →
     run mem cs s1 = Done s2 →
     Forall (λ c, ¬ removes_instance mem (GetDispatchTableKey mem instance) c) cs →
     GetDispatchTableKey mem obj = GetDispatchTableKey mem instance →
     call (instance_lookup mem f obj) s2 =
       if bool_decide (next instance (instance_member_name f) ≠ nullptr)
       then Done (VPtr (next instance (instance_member_name f)), s2)
       else Fatal).
Proof.
  split.
  - intros s device next v s1 cs s2 obj f Hc Hr Hall Hkey.
    destruct (registered_device_state _ _ _ _ _ _ _ _ Hc Hr Hall)
      as (Hm & Hd & _ & _).
    rewrite device_lookup_accessor, call_device_accessor.
    rewrite Hm, Hkey, Hd, device_member_resolved. reflexivity.
  - intros s instance next v s1 cs s2 obj f Hc Hr Hall Hkey.
    destruct (registered_instance_state _ _ _ _ _ _ _ _ Hc Hr Hall) as (Hm & Hd).
    rewrite instance_lookup_accessor, call_instance_accessor.
    rewrite Hm, Hkey, Hd, instance_member_resolved. reflexivity.
Qed.

Lemma lookup_roundtrip_witness :
  call (QueueSubmit Scenario.memory Scenario.command_buffer) Scenario.with_both
    = Done (VPtr 525, Scenario.with_both) ∧
  call (CmdDebugMarkerEndEXT Scenario.memory Scenario.command_buffer)
       Scenario.with_both = Fatal ∧
  call (DestroyInstance Scenario.memory Scenario.instance) Scenario.with_both
    = Done (VPtr 33, Scenario.with_both).
Proof.
  split; [|split].
  - apply (proj1 (lookup_roundtrip Scenario.memory) init Scenario.device
             Scenario.next VVoid Scenario.with_device
             [CreateInstance Scenario.instance Scenario.next]
             Scenario.with_both Scenario.command_buffer MQueueSubmit).
    + vm_compute. reflexivity.
    + vm_compute. reflexivity.
    + repeat constructor; cbn; tauto.
    + reflexivity.
  - apply (proj1 (lookup_roundtrip Scenario.memory) init Scenario.device
             Scenario.next VVoid Scenario.with_device
             [CreateInstance Scenario.instance Scenario.next]
             Scenario.with_both Scenario.command_buffer MCmdDebugMarkerEndEXT).
    + vm_compute. reflexivity.
    + vm_compute. reflexivity.
    + repeat constructor; cbn; tauto.
    + reflexivity.
  - apply (proj2 (lookup_roundtrip Scenario.memory) Scenario.with_device
             Scenario.instance Scenario.next VVoid Scenario.with_both
             [LookupDevice MQueueSubmit Scenario.device]
             Scenario.with_both Scenario.instance MDestroyInstance).
    + vm_compute. reflexivity.
    + vm_compute. reflexivity.
    + repeat constructor; cbn; tauto.
    + reflexivity.
Defined.

(** C2 as stated fails: the device of the scenario is registered with null
    debug-marker entry points, and [CmdDebugMarkerBeginEXT] on it does not
    return the (null) pointer the resolver produced: it dies on its [CHECK]. *)
Lemma lookup_roundtrip_counterexample :
  call (CreateDeviceDispatchTable Scenario.memory Scenario.device Scenario.next)
       init = Done (VVoid, Scenario.with_device) ∧
  Scenario.next Scenario.device "vkCmdDebugMarkerBeginEXT" = nullptr ∧
  call (CmdDebugMarkerBeginEXT Scenario.memory Scenario.device)
       Scenario.with_device = Fatal ∧
  call (CmdDebugMarkerBeginEXT Scenario.memory Scenario.device)
       Scenario.with_device
    ≠ Done (VPtr (Scenario.next Scenario.device "vkCmdDebugMarkerBeginEXT"),
            Scenario.with_device).
Proof.
  assert (H : call (CmdDebugMarkerBeginEXT Scenario.memory Scenario.device)
                Scenario.with_device = Fatal) by (vm_compute; reflexivity).
  split; [|split; [|split]].
  - vm_compute. reflexivity.
  - reflexivity.
  - exact H.
  - rewrite H. discriminate.
Qed.

(** C4: once [RemoveDeviceDispatchTable] has returned, and until the key is
    registered again, every accessor of the device table and both extension
    queries, called on an object with the removed key, die on their [CHECK]:
    none of them returns anything of the removed entry. *)
Theorem lookup_after_remove_is_fatal mem s device v s1 cs s2 obj :
  call (RemoveDeviceDispatchTable mem device) s = Done (v, s1) →
  run mem cs s1 = Done s2 →
  Forall (λ c, ¬ creates_device mem (GetDispatchTableKey mem device) c) cs →
  GetDispatchTableKey mem obj = GetDispatchTableKey mem device →
  (∀ f, call (device_lookup mem f obj) s2 = Fatal) ∧
  call (IsDebugUtilsExtensionSupported mem obj) s2 = Fatal ∧
  call (IsDebugMarkerExtensionSupported mem obj) s2 = Fatal.
Proof.
  intros Hc Hr Hall Hkey.
  apply remove_device_done in Hc as (_ & Hm & _ & HT).
  pose proof (device_removed_lookup (GetDispatchTableKey mem device) (tables s))
    as (L1 & L2 & L3).
  rewrite <- HT in L1, L2, L3.
  destruct (run_device_absent_kept _ _ _ _ _ Hr Hall L1 L2 L3) as (K1 & K2 & K3).
  pose proof (run_mutex _ _ _ _ Hr) as Hm2. rewrite Hm in Hm2.
  split; [|split].
  - intros f. rewrite device_lookup_accessor, call_device_accessor.
    by rewrite Hm2, Hkey, K1.
  - rewrite call_IsDebugUtilsExtensionSupported. by rewrite Hm2, Hkey, K2.
  - rewrite call_IsDebugMarkerExtensionSupported. by rewrite Hm2, Hkey, K3.
Qed.

Lemma lookup_after_remove_is_fatal_witness :
  (∀ f, call (device_lookup Scenario.memory f Scenario.command_buffer)
             Scenario.with_other_device = Fatal) ∧
  call (IsDebugUtilsExtensionSupported Scenario.memory Scenario.command_buffer)
       Scenario.with_other_device = Fatal ∧
  call (IsDebugMarkerExtensionSupported Scenario.memory Scenario.command_buffer)
       Scenario.with_other_device = Fatal.
Proof.
  apply (lookup_after_remove_is_fatal Scenario.memory Scenario.with_both
           Scenario.device VVoid Scenario.with_instance
           [LookupInstance MDestroyInstance Scenario.instance;
            CreateDevice Scenario.other_device Scenario.next]).
  - vm_compute. reflexivity.
  - vm_compute. reflexivity.
  - repeat constructor; cbn; try tauto. vm_compute. discriminate.
  - reflexivity.
Defined.

(** C6: a device registered with a null pointer for some member keeps that
    null pointer in its entry, and the accessor of that member, called on an
    object with the device's key while the device is registered, dies on its
    [CHECK]; whatever the state, no accessor of the device table returns a
    null pointer. *)
Theorem null_member_lookup_is_fatal mem f obj :
  (∀ s device next v s1 cs s2,
     call (CreateDeviceDispatchTable mem device next) s = Done (v, s1) →
     run mem cs s1 = Done s2 →
     Forall (λ c, ¬ removes_device mem (GetDispatchTableKey mem device) c) cs →
     GetDispatchTableKey mem obj = GetDispatchTableKey mem device →
     next device (device_member_name f) = nullptr →
     (∃ dt, device_dispatch_table_ (tables s2) !! GetDispatchTableKey mem obj
              = Some dt ∧ device_member f dt = nullptr) ∧
     call (device_lookup mem f obj) s2 = Fatal) ∧
  (∀ s v s', call (device_lookup mem f obj) s = Done (v, s') → v ≠ VPtr nullptr).
Proof.
  split.
  - intros s device next v s1 cs s2 Hc Hr Hall Hkey Hnull.
    destruct (registered_device_state _ _ _ _ _ _ _ _ Hc Hr Hall)
      as (Hm & Hd & _ & _).
    split.
    + eexists. rewrite Hkey. split; [exact Hd|].
      by rewrite device_member_resolved.
    + rewrite device_lookup_accessor, call_device_accessor.
      rewrite Hm, Hkey, Hd, device_member_resolved, Hnull. reflexivity.
  - intros s v s'. rewrite device_lookup_accessor, call_device_accessor.
    destruct (Mutex.writer_held _); [done|].
    destruct (_ !! _) as [dt|]; [|done].
    destruct (bool_decide (device_member f dt ≠ nullptr)) eqn:Hb; [|done].
    apply bool_decide_eq_true in Hb. intros [= <- <-] [= E]. done.
Qed.

Lemma null_member_lookup_is_fatal_witness :
  ((∃ dt, device_dispatch_table_ (tables Scenario.with_both)
            !! GetDispatchTableKey Scenario.memory Scenario.command_buffer
            = Some dt ∧ D.CmdDebugMarkerBeginEXT dt = nullptr) ∧
   call (CmdDebugMarkerBeginEXT Scenario.memory Scenario.command_buffer)
        Scenario.with_both = Fatal) ∧
  VPtr 525 ≠ VPtr nullptr.
Proof.
  split.
  - apply (proj1 (null_member_lookup_is_fatal Scenario.memory
                    MCmdDebugMarkerBeginEXT Scenario.command_buffer)
             init Scenario.device Scenario.next VVoid Scenario.with_device
             [CreateInstance Scenario.instance Scenario.next]).
    + vm_compute. reflexivity.
    + vm_compute. reflexivity.
    + repeat constructor; cbn; tauto.
    + reflexivity.
    + reflexivity.
  - apply (proj2 (null_member_lookup_is_fatal Scenario.memory
                    MQueueSubmit Scenario.command_buffer)
             Scenario.with_both (VPtr 525) Scenario.with_both).
    vm_compute. reflexivity.
Defined.

(** An entry or a flag stored for a key stays as it is through every sequence
    of calls that return, as long as none of them removes the device of that
    key: a registration of the key in between would have died on a [CHECK]. *)
Lemma run_device_maps_kept mem key cs : ∀ s s',
  run mem cs s = Done s' →
  Forall (λ c, ¬ removes_device mem key c) cs →
  is_Some (device_dispatch_table_ (tables s) !! key)
  ∨ is_Some (device_supports_debug_utils_extension_ (tables s) !! key)
  ∨ is_Some (device_supports_debug_marker_extension_ (tables s) !! key) →
  device_dispatch_table_ (tables s') !! key
    = device_dispatch_table_ (tables s) !! key ∧
  device_supports_debug_utils_extension_ (tables s') !! key
    = device_supports_debug_utils_extension_ (tables s) !! key ∧
  device_supports_debug_marker_extension_ (tables s') !! key
    = device_supports_debug_marker_extension_ (tables s) !! key.
Proof.
  induction cs as [|c cs IH]; intros s s' Hrun Hall Hsome.
  - by injection Hrun as <-.
  - apply run_cons_done in Hrun as (v & s1 & Hc & Hr).
    apply Forall_cons in Hall as [Hc1 Hall].
    apply call_done in Hc as (_ & He & _).
    assert (Hnc : ¬ creates_device mem key c).
    { destruct c as [| |device next| | | | |]; cbn [creates_device]; try tauto.
      intros <-. cbn [effect] in He.
      rewrite <- !contains_spec in Hsome.
      destruct Hsome as [E|[E|E]]; rewrite E in He;
        repeat (destruct (contains _ _); cbn in He; try done). }
    destruct (effect_device_other _ _ _ _ _ key He Hnc Hc1) as (E1 & E2 & E3).
    rewrite <- E1, <- E2, <- E3 in Hsome.
    destruct (IH _ _ Hr Hall Hsome) as (F1 & F2 & F3).
    rewrite F1, F2, F3. done.
Qed.

Lemma not_removed_device mem c key cs :
  target mem c = (DeviceTable, key) →
  Forall (λ c', is_remove_instance c' || is_remove_device c' = true →
                target mem c' ≠ target mem c) cs →
  Forall (λ c', ¬ removes_device mem key c') cs.
Proof.
  intros Ht Hall. eapply Forall_impl; [exact Hall|]. cbn beta. intros c' H.
  destruct c' as [| | |device| | | |]; cbn [removes_device]; try tauto.
  intros E. apply (H eq_refl). rewrite Ht. cbn [target]. by rewrite E.
Qed.

Lemma not_removed_instance mem c key cs :
  target mem c = (InstanceTable, key) →
  Forall (λ c', is_remove_instance c' || is_remove_device c' = true →
                target mem c' ≠ target mem c) cs →
  Forall (λ c', ¬ removes_instance mem key c') cs.
Proof.
  intros Ht Hall. eapply Forall_impl; [exact Hall|]. cbn beta. intros c' H.
  destruct c' as [|instance| | | | | |]; cbn [removes_instance]; try tauto.
  intros E. apply (H eq_refl). rewrite Ht. cbn [target]. by rewrite E.
Qed.

Lemma read_only_call mem c s v s' :
  is_create_or_remove c = false →
  call (code_of mem c) s = Done (v, s') → s' = s.
Proof.
  intros Hro H. apply call_done in H as (_ & He & Hm).
  assert (HT : tables s' = tables s) by (effect_cases c He; done).
  destruct s, s'; cbn in *; congruence.
Qed.

Lemma read_only_run mem cs : ∀ s s',
  Forall (λ c, is_create_or_remove c = false) cs →
  run mem cs s = Done s' → s' = s.
Proof.
  induction cs as [|c cs IH]; intros s s' Hall Hrun.
  - by injection Hrun as <-.
  - apply Forall_cons in Hall as [Hc Hall].
    apply run_cons_done in Hrun as (v & s1 & Hcall & Hr).
    apply read_only_call in Hcall as ->; eauto.
Qed.

(** C7: every accessor and both extension queries, when they return, leave
    the whole object as it was (the four maps and the mutex); and the same
    call made again returns the same value after any calls that return,
    registrations and removals included, as long as none of them removes the
    entry the call reads: the flags and the pointers of a registered key are
    not touched again before its removal. *)
Theorem lookups_leave_state_unchanged mem c s v s' :
  is_create_or_remove c = false →
  call (code_of mem c) s = Done (v, s') →
  s' = s ∧
  ∀ cs s'',
    Forall (λ c', is_remove_instance c' || is_remove_device c' = true →
                  target mem c' ≠ target mem c) cs →
    run mem cs s' = Done s'' →
    call (code_of mem c) s'' = Done (v, s'').
Proof.
  intros Hro H.
  pose proof (read_only_call _ _ _ _ _ Hro H) as ->.
  split; [reflexivity|]. intros cs s'' Hall Hrun.
  apply call_done in H as (Hl & He & _).
  pose proof (run_mutex _ _ _ _ Hrun) as Hm.
  rewrite call_code_of, Hm, Hl.
  assert (Heta : {| tables := tables s''; mutex_ := mutex_ s |} = s'')
    by (destruct s''; cbn in *; congruence).
  destruct c as [instance next|instance|device next|device|f obj|f obj|obj|obj];
    try discriminate Hro; cbn [effect] in *.
  - pose proof (not_removed_instance mem (LookupInstance f obj) _ cs eq_refl Hall)
      as Hnr.
    destruct (instance_dispatch_table_ (tables s) !! GetDispatchTableKey mem obj)
      as [dt|] eqn:Hk; [|done].
    rewrite (run_instance_entry_kept _ _ _ _ _ _ Hrun Hnr Hk).
    destruct (bool_decide _); [|done]. injection He as <-. by rewrite Heta.
  - pose proof (not_removed_device mem (LookupDevice f obj) _ cs eq_refl Hall) as Hnr.
    destruct (device_dispatch_table_ (tables s) !! GetDispatchTableKey mem obj)
      as [dt|] eqn:Hk; [|done].
    destruct (run_device_maps_kept _ _ _ _ _ Hrun Hnr) as (-> & _ & _);
      [left; rewrite Hk; eauto|].
    rewrite Hk. destruct (bool_decide _); [|done].
    injection He as <-. by rewrite Heta.
  - pose proof (not_removed_device mem (QueryDebugMarker obj) _ cs eq_refl Hall) as Hnr.
    destruct (device_supports_debug_marker_extension_ (tables s)
                !! GetDispatchTableKey mem obj) as [b|] eqn:Hk; [|done].
    destruct (run_device_maps_kept _ _ _ _ _ Hrun Hnr) as (_ & _ & ->);
      [right; right; rewrite Hk; eauto|].
    rewrite Hk. injection He as <-. by rewrite Heta.
  - pose proof (not_removed_device mem (QueryDebugUtils obj) _ cs eq_refl Hall) as Hnr.
    destruct (device_supports_debug_utils_extension_ (tables s)
                !! GetDispatchTableKey mem obj) as [b|] eqn:Hk; [|done].
    destruct (run_device_maps_kept _ _ _ _ _ Hrun Hnr) as (_ & -> & _);
      [right; left; rewrite Hk; eauto|].
    rewrite Hk. injection He as <-. by rewrite Heta.
Qed.

Lemma lookups_leave_state_unchanged_witness :
  Scenario.with_both = Scenario.with_both ∧
  call (code_of Scenario.memory (QueryDebugUtils Scenario.command_buffer))
       {| tables := device_registered 4128
                      (resolved_device_table Scenario.other_device Scenario.next)
                      (tables Scenario.with_device);
          mutex_ := Mutex.free |}
    = Done (VBool true,
            {| tables := device_registered 4128
                           (resolved_device_table Scenario.other_device
                              Scenario.next)
                           (tables Scenario.with_device);
               mutex_ := Mutex.free |}).
Proof.
  destruct (lookups_leave_state_unchanged Scenario.memory
              (QueryDebugUtils Scenario.command_buffer) Scenario.with_both
              (VBool true) Scenario.with_both) as [H1 H2].
  - reflexivity.
  - vm_compute. reflexivity.
  - split; [exact H1|].
    apply (H2 [CreateDevice Scenario.other_device Scenario.next;
               LookupInstance MDestroyInstance Scenario.instance;
               RemoveInstance Scenario.instance;
               QueryDebugMarker Scenario.device]).
    + repeat constructor; cbn; intros; discriminate.
    + vm_compute. reflexivity.
Defined.

(** C8: [GetDispatchTableKey] returns the word stored at the address the
    handle holds; the result depends on no other part of memory (in
    particular not on what lies at the key); so two handles whose memory
    starts with the same word have the same key, and every member function
    does the same on both. *)
Theorem key_is_first_word mem obj :
  GetDispatchTableKey mem obj = mem obj ∧
  (∀ mem' : Memory,
     mem' obj = mem obj →
     GetDispatchTableKey mem' obj = GetDispatchTableKey mem obj) ∧
  (∀ obj',
     mem obj' = mem obj →
     GetDispatchTableKey mem obj' = GetDispatchTableKey mem obj ∧
     (∀ f s, call (device_lookup mem f obj') s = call (device_lookup mem f obj) s) ∧
     (∀ f s, call (instance_lookup mem f obj') s
             = call (instance_lookup mem f obj) s) ∧
     (∀ s, call (IsDebugUtilsExtensionSupported mem obj') s
           = call (IsDebugUtilsExtensionSupported mem obj) s) ∧
     (∀ s, call (IsDebugMarkerExtensionSupported mem obj') s
           = call (IsDebugMarkerExtensionSupported mem obj) s)).
Proof.
  split; [reflexivity|]. split.
  - intros mem' H. exact H.
  - intros obj' H.
    assert (K : GetDispatchTableKey mem obj' = GetDispatchTableKey mem obj)
      by exact H.
    split; [exact K|]. repeat split; intros.
    + by rewrite !device_lookup_accessor, !call_device_accessor, K.
    + by rewrite !instance_lookup_accessor, !call_instance_accessor, K.
    + by rewrite !call_IsDebugUtilsExtensionSupported, K.
    + by rewrite !call_IsDebugMarkerExtensionSupported, K.
Qed.

Lemma key_is_first_word_witness :
  GetDispatchTableKey Scenario.memory Scenario.command_buffer
    = GetDispatchTableKey Scenario.memory Scenario.device ∧
  call (QueueSubmit Scenario.memory Scenario.command_buffer) Scenario.with_both
    = call (QueueSubmit Scenario.memory Scenario.device) Scenario.with_both.
Proof.
  destruct (key_is_first_word Scenario.memory Scenario.device) as (_ & _ & H).
  destruct (H Scenario.command_buffer eq_refl) as (K & L & _).
  split; [exact K|]. exact (L MQueueSubmit Scenario.with_both).
Defined.

(** ** The flags are stored for exactly the registered devices *)

Lemma flags_match_empty : flags_match_entries empty_tables.
Proof. intros key. cbn. rewrite !lookup_empty. done. Qed.

Lemma effect_flags_match mem c T v T' :
  effect mem c T = Some (v, T') →
  flags_match_entries T → flags_match_entries T'.
Proof.
  intros H Hinv. effect_cases c H; try exact Hinv.
  - intros key. destruct (Hinv key) as [Hu Hm]. cbn.
    rewrite !lookup_insert_is_Some. tauto.
  - intros key. destruct (Hinv key) as [Hu Hm]. cbn.
    rewrite !lookup_delete_is_Some. tauto.
Qed.

Lemma run_flags_match mem cs : ∀ s s',
  run mem cs s = Done s' →
  flags_match_entries (tables s) → flags_match_entries (tables s').
Proof.
  induction cs as [|c cs IH]; intros s s' Hrun Hinv.
  - by injection Hrun as <-.
  - apply run_cons_done in Hrun as (v & s1 & Hc & Hr).
    apply call_done in Hc as (_ & He & _).
    eauto using effect_flags_match.
Qed.

Lemma reachable_inv mem s :
  reachable mem s → flags_match_entries (tables s) ∧ mutex_ s = Mutex.free.
Proof.
  intros [cs Hrun]. split.
  - apply (run_flags_match _ _ _ _ Hrun), flags_match_empty.
  - apply (run_mutex _ _ _ _ Hrun).
Qed.

Lemma contains_eq_of_iff {V W} (m : gmap Key V) (m' : gmap Key W) key :
  (is_Some (m !! key) ↔ is_Some (m' !! key)) → contains m key = contains m' key.
Proof.
  intros H. unfold contains.
  destruct (bool_decide (is_Some (m' !! key))) eqn:E.
  - apply bool_decide_eq_true in E. apply bool_decide_eq_true. tauto.
  - apply bool_decide_eq_false in E. apply bool_decide_eq_false. tauto.
Qed.

Lemma contains_false_iff {V} (m : gmap Key V) key :
  contains m key = false ↔ m !! key = None.
Proof.
  unfold contains. rewrite bool_decide_eq_false, <- eq_None_not_Some. done.
Qed.

(** With matching flags, the three [CHECK]s of the device writers agree with
    the first of them. *)
Lemma effect_device_writers mem T device next :
  flags_match_entries T →
  effect mem (CreateDevice device next) T =
    (if contains (device_dispatch_table_ T) (GetDispatchTableKey mem device)
     then None
     else Some (VVoid, device_registered (GetDispatchTableKey mem device)
                         (resolved_device_table device next) T)) ∧
  effect mem (RemoveDevice device) T =
    (if contains (device_dispatch_table_ T) (GetDispatchTableKey mem device)
     then Some (VVoid, device_removed (GetDispatchTableKey mem device) T)
     else None).
Proof.
  intros Hinv. destruct (Hinv (GetDispatchTableKey mem device)) as [Hu Hm].
  cbn [effect].
  rewrite (contains_eq_of_iff _ _ _ Hu), (contains_eq_of_iff _ _ _ Hm).
  destruct (contains (device_dispatch_table_ T) _); done.
Qed.

Lemma contract_outcome (P : Prop) (b : bool) (s1 : t) :
  (P ↔ b = true) →
  (P ↔ ∃ s', (if b then Done (VVoid, s1) else Fatal) = Done (VVoid, s')) ∧
  (¬ P ↔ (if b then Done (VVoid, s1) else Fatal) = @Fatal (Value * t)).
Proof.
  intros HP. destruct b.
  - split; split; [eauto|tauto| |done].
    intros HnP. destruct HnP. tauto.
  - assert (HnP : ¬ P) by (intros H; apply HP in H; done).
    split; split; [done| |done..].
    intros [s' H]. done.
Qed.

(** C5: in every state the object gets into, each [Create] and each [Remove]
    returns exactly when its key is absent from, respectively present in, the
    table it works on, and dies on a [CHECK] exactly when it is not. *)
Theorem create_remove_contract mem s c :
  reachable mem s →
  is_create_or_remove c = true →
  (precondition mem c (tables s)
     ↔ ∃ s', call (code_of mem c) s = Done (VVoid, s')) ∧
  (¬ precondition mem c (tables s) ↔ call (code_of mem c) s = Fatal).
Proof.
  intros Hreach Hw. apply reachable_inv in Hreach as [Hinv Hm].
  rewrite call_code_of. unfold lock_available. rewrite Hw, Hm.
  cbn [Mutex.is_free Mutex.free Mutex.writer_held Mutex.reader_count negb andb].
  rewrite bool_decide_true by done.
  destruct c as [instance next|instance|device next|device|f obj|f obj|obj|obj];
    try discriminate Hw; cbn [precondition].
  - cbn [effect].
    destruct (contains _ _) eqn:E.
    + apply contains_spec in E as [dt E].
      apply (contract_outcome _ false s). rewrite E. done.
    + apply contains_false_iff in E. by apply (contract_outcome _ true).
  - cbn [effect]. rewrite <- contains_spec.
    destruct (contains _ _) eqn:E.
    + by apply (contract_outcome _ true).
    + by apply (contract_outcome _ false s).
  - rewrite (proj1 (effect_device_writers mem _ device next Hinv)).
    destruct (contains _ _) eqn:E.
    + apply contains_spec in E as [dt E].
      apply (contract_outcome _ false s). rewrite E. done.
    + apply contains_false_iff in E. by apply (contract_outcome _ true).
  - rewrite (proj2 (effect_device_writers mem _ device (λ _ _, nullptr) Hinv)).
    rewrite <- contains_spec.
    destruct (contains _ _) eqn:E.
    + by apply (contract_outcome _ true).
    + by apply (contract_outcome _ false s).
Qed.

Lemma create_remove_contract_witness :
  (precondition Scenario.memory
     (CreateDevice Scenario.other_device Scenario.next) (tables Scenario.with_both)
     ↔ ∃ s', call (code_of Scenario.memory
                     (CreateDevice Scenario.other_device Scenario.next))
                  Scenario.with_both = Done (VVoid, s')) ∧
  (¬ precondition Scenario.memory
       (CreateDevice Scenario.other_device Scenario.next) (tables Scenario.with_both)
     ↔ call (code_of Scenario.memory
               (CreateDevice Scenario.other_device Scenario.next))
            Scenario.with_both = Fatal).
Proof.
  apply create_remove_contract.
  - exists [CreateDevice Scenario.device Scenario.next;
            CreateInstance Scenario.instance Scenario.next].
    vm_compute. reflexivity.
  - reflexivity.
Defined.

(** ** Interleaved runs *)

Lemma count_holding_cons h th ths :
  count_holding h (th :: ths)
    = (if decide (holds th = h) then 1 else 0) + count_holding h ths.
Proof.
  unfold count_holding. rewrite filter_cons.
  destruct (decide (holds th = h)); reflexivity.
Qed.

Lemma count_holding_insert h ths : ∀ i th th',
  ths !! i = Some th →
  count_holding h (<[i:=th']> ths) + (if decide (holds th = h) then 1 else 0)
    = count_holding h ths + (if decide (holds th' = h) then 1 else 0).
Proof.
  induction ths as [|x ths IH]; intros i th th' Hi; [done|].
  destruct i as [|i]; cbn in Hi.
  - injection Hi as ->.
    change (<[0:=th']> (th :: ths)) with (th' :: ths).
    rewrite !count_holding_cons. lia.
  - change (<[S i:=th']> (x :: ths)) with (x :: <[i:=th']> ths).
    rewrite !count_holding_cons.
    specialize (IH i th th' Hi). lia.
Qed.

Lemma count_holding_pos h ths : ∀ i th,
  ths !! i = Some th → holds th = h → 0 < count_holding h ths.
Proof.
  induction ths as [|x ths IH]; intros i th Hi Hh; [done|].
  rewrite count_holding_cons. destruct i as [|i]; cbn in Hi.
  - injection Hi as ->. rewrite decide_True by done. lia.
  - specialize (IH i th Hi Hh). lia.
Qed.

Lemma count_holding_unique h ths : ∀ i j a b,
  count_holding h ths ≤ 1 →
  ths !! i = Some a → ths !! j = Some b →
  holds a = h → holds b = h → i = j.
Proof.
  induction ths as [|x ths IH]; intros i j a b Hc Hi Hj Ha Hb; [done|].
  rewrite count_holding_cons in Hc.
  destruct i as [|i], j as [|j]; cbn in Hi, Hj; [done| | |].
  - injection Hi as ->. rewrite decide_True in Hc by done.
    pose proof (count_holding_pos _ _ _ _ Hj Hb). lia.
  - injection Hj as ->. rewrite decide_True in Hc by done.
    pose proof (count_holding_pos _ _ _ _ Hi Ha). lia.
  - f_equal. apply (IH i j a b); [lia|done..].
Qed.

(** The shape of the code of the writers and of the readers. *)
Lemma writer_code mem c :
  is_create_or_remove c = true →
  ∃ body, code_of mem c = WriterMutexLock :: body ∧
          writer_rest body = true ∧
          ∀ T, section_end body T = snd <$> effect mem c T.
Proof.
  intros Hw.
  destruct c as [instance next|instance|device next|device|f obj|f obj|obj|obj];
    try discriminate Hw; (eexists; split; [reflexivity|]; split; [reflexivity|]);
    intros T; cbn [section_end effect].
  - destruct (contains _ _); reflexivity.
  - destruct (contains _ _); reflexivity.
  - cbn. destruct (contains (device_dispatch_table_ T) _); [reflexivity|].
    destruct (contains (device_supports_debug_utils_extension_ T) _);
      [reflexivity|].
    destruct (contains (device_supports_debug_marker_extension_ T) _); reflexivity.
  - cbn. destruct (contains (device_dispatch_table_ T) _); [|reflexivity].
    destruct (contains (device_supports_debug_utils_extension_ T) _);
      [|reflexivity].
    destruct (contains (device_supports_debug_marker_extension_ T) _); reflexivity.
Qed.

Lemma reader_code mem c :
  is_create_or_remove c = false →
  ∃ body, code_of mem c = ReaderMutexLock :: body ∧ reader_rest body = true.
Proof.
  intros Hr.
  destruct c as [instance next|instance|device next|device|f obj|f obj|obj|obj];
    try discriminate Hr; cbn [code_of].
  - rewrite instance_lookup_accessor. eexists; split; reflexivity.
  - rewrite device_lookup_accessor. eexists; split; reflexivity.
  - eexists; split; reflexivity.
  - eexists; split; reflexivity.
Qed.

Lemma writer_restores mem c body T :
  is_create_or_remove c = true →
  code_of mem c = WriterMutexLock :: body →
  flags_match_entries T → restores body T.
Proof.
  intros Hw Hcode Hinv.
  destruct (writer_code mem c Hw) as (body' & Hcode' & _ & Hend).
  rewrite Hcode in Hcode'. injection Hcode' as ->.
  unfold restores. rewrite Hend.
  destruct (effect mem c T) as [[v T']|] eqn:He; cbn; [|done].
  eauto using effect_flags_match.
Qed.

Lemma initial_inv mem work : config_inv mem (initial work).
Proof.
  assert (Hcount : ∀ h, h ≠ NoLock → count_holding h (threads (initial work)) = 0).
  { intros h Hh. cbn [initial threads]. induction work as [|cs work IH]; [done|].
    rewrite fmap_cons, count_holding_cons, IH.
    cbn [holds]. by rewrite decide_False by done. }
  split.
  - by rewrite (Hcount Shared).
  - by rewrite (Hcount Exclusive).
  - done.
  - apply Forall_fmap, Forall_forall. intros cs _. by left.
  - intros _. apply flags_match_empty.
Qed.

Lemma step_call_inv mem cfg i th c cs :
  config_inv mem cfg →
  threads cfg !! i = Some th →
  code th = [] →
  config_inv mem
    {| object := object cfg;
       threads := <[i := {| pending := cs; code := code_of mem c;
                            holds := holds th; result := VVoid |}]> (threads cfg) |}.
Proof.
  intros [Hrd Hwr Hex Hth Htb] Hi Hcode.
  pose proof (Forall_lookup_1 _ _ _ _ Hth Hi) as Hok.
  assert (Hno : holds th = NoLock).
  { unfold thread_ok in Hok. rewrite Hcode in Hok.
    destruct (holds th); [done|discriminate Hok|destruct Hok; discriminate]. }
  set (th' := {| pending := cs; code := code_of mem c; holds := holds th;
                 result := VVoid |}).
  pose proof (count_holding_insert Shared _ _ _ th' Hi) as HS.
  pose proof (count_holding_insert Exclusive _ _ _ th' Hi) as HE.
  cbn [holds th'] in HS, HE.
  split; cbn [object threads].
  - lia.
  - rewrite <- Hwr. lia.
  - done.
  - apply Forall_insert; [done|]. unfold thread_ok. cbn. rewrite Hno. eauto.
  - done.
Qed.

Lemma thread_ok_tables mem T T' th :
  holds th ≠ Exclusive → thread_ok mem T th → thread_ok mem T' th.
Proof. unfold thread_ok. destruct (holds th); done. Qed.

Lemma threads_ok_update mem T T' ths i th th' :
  Forall (thread_ok mem T) ths →
  ths !! i = Some th →
  thread_ok mem T' th' →
  T' = T ∨ (holds th = Exclusive ∧ count_holding Exclusive ths ≤ 1) →
  Forall (thread_ok mem T') (<[i:=th']> ths).
Proof.
  intros Hall Hi Hok' Hcase. apply Forall_lookup. intros j thj Hj.
  destruct (decide (i = j)) as [<-|Hne].
  - rewrite list_lookup_insert_eq in Hj by eauto using lookup_lt_Some.
    by injection Hj as <-.
  - rewrite list_lookup_insert_ne in Hj by done.
    pose proof (Forall_lookup_1 _ _ _ _ Hall Hj) as Hokj.
    destruct Hcase as [->|[Hex Hle]]; [done|].
    apply (thread_ok_tables mem T); [|done].
    intros Hexj. apply Hne. eauto using count_holding_unique.
Qed.

Lemma step_instr_inv mem cfg i th ins rest s' r' :
  config_inv mem cfg →
  threads cfg !! i = Some th →
  code th = ins :: rest →
  instr_step ins (object cfg) (result th) = Next s' r' →
  config_inv mem
    {| object := s';
       threads := <[i := {| pending := pending th; code := rest;
                            holds := hold_after ins (holds th);
                            result := r' |}]> (threads cfg) |}.
Proof.
  intros [Hrd Hwr Hex Hth Htb] Hi Hcode Hstep.
  pose proof (Forall_lookup_1 _ _ _ _ Hth Hi) as Hok.
  set (th' := {| pending := pending th; code := rest;
                 holds := hold_after ins (holds th); result := r' |}).
  pose proof (count_holding_insert Shared _ _ _ th' Hi) as HS.
  pose proof (count_holding_insert Exclusive _ _ _ th' Hi) as HE.
  cbn [holds th'] in HS, HE.
  unfold thread_ok in Hok. rewrite Hcode in Hok.
  destruct (object cfg) as [T [w n]] eqn:Hobj.
  cbn [tables mutex_ Mutex.writer_held Mutex.reader_count] in *.
  destruct (holds th) eqn:Hh.
  - (* the thread takes the lock *)
    destruct Hok as [?|[c Hc]]; [done|].
    destruct (is_create_or_remove c) eqn:Hw.
    + destruct (writer_code mem c Hw) as (body & Hbody & Hshape & _).
      pose proof Hbody as Hbody'.
      rewrite <- Hc in Hbody. injection Hbody as -> ->.
      cbn in Hstep. destruct w; [done|]. destruct n; [|done].
      injection Hstep as <- <-. cbn [hold_after] in *.
      repeat case_decide; try done.
      split; cbn [object threads tables mutex_ Mutex.writer_held
                  Mutex.reader_count]; try lia; try done.
      eapply threads_ok_update; [done..| |by left].
      unfold thread_ok. cbn [holds code th' hold_after].
      split; [done|]. eapply writer_restores; eauto.
    + destruct (reader_code mem c Hw) as (body & Hbody & Hshape).
      rewrite <- Hc in Hbody. injection Hbody as -> ->.
      cbn in Hstep. destruct w; [done|].
      injection Hstep as <- <-. cbn [hold_after] in *.
      repeat case_decide; try done.
      split; cbn [object threads tables mutex_ Mutex.writer_held
                  Mutex.reader_count]; try lia; try done.
      eapply threads_ok_update; [done..| |by left].
      unfold thread_ok. cbn [holds code th' hold_after]. done.
  - (* the thread is in a reader section *)
    pose proof (count_holding_pos _ _ _ _ Hi Hh) as Hpos.
    assert (w = false) as -> by (destruct w; [specialize (Hex eq_refl); lia|done]).
    destruct ins; cbn in Hok; try discriminate Hok.
    + destruct rest; [|discriminate Hok].
      cbn in Hstep. injection Hstep as <- <-. cbn [hold_after] in *.
      repeat case_decide; try done.
      split; cbn [object threads tables mutex_ Mutex.writer_held
                  Mutex.reader_count Mutex.ReaderUnlock]; try lia; try done.
      eapply threads_ok_update; [done..| |by left].
      unfold thread_ok. cbn [holds code th' hold_after]. by left.
    + cbn in Hstep. destruct (cond T) as [[]|]; try discriminate Hstep.
      injection Hstep as <- <-. cbn [hold_after] in *.
      repeat case_decide; try done.
      split; cbn [object threads tables mutex_ Mutex.writer_held
                  Mutex.reader_count]; try lia; try done.
      eapply threads_ok_update; [done..| |by left].
      unfold thread_ok. cbn [holds code th' hold_after]. try rewrite Hh; done.
    + cbn in Hstep. destruct (e T) as [v|]; try discriminate Hstep.
      injection Hstep as <- <-. cbn [hold_after] in *.
      repeat case_decide; try done.
      split; cbn [object threads tables mutex_ Mutex.writer_held
                  Mutex.reader_count]; try lia; try done.
      eapply threads_ok_update; [done..| |by left].
      unfold thread_ok. cbn [holds code th' hold_after]. try rewrite Hh; done.
  - (* the thread is in a writer section *)
    pose proof (count_holding_pos _ _ _ _ Hi Hh) as Hpos.
    assert (w = true) as -> by (destruct w; [done|lia]).
    specialize (Hex eq_refl). subst n.
    destruct Hok as [Hshape Hres].
    assert (Hle : count_holding Exclusive (threads cfg) ≤ 1) by lia.
    destruct ins; cbn in Hshape; try discriminate Hshape.
    + destruct rest; [|discriminate Hshape].
      cbn in Hstep. injection Hstep as <- <-. cbn [hold_after] in *.
      repeat case_decide; try done.
      split; cbn [object threads tables mutex_ Mutex.writer_held
                  Mutex.reader_count Mutex.WriterUnlock]; try lia; try done.
      eapply threads_ok_update; [done..| |by left].
      unfold thread_ok. cbn [holds code th' hold_after]. by left.
    + cbn in Hstep. unfold restores in Hres. cbn [section_end] in Hres.
      destruct (cond T) as [[]|]; try discriminate Hstep.
      injection Hstep as <- <-. cbn [hold_after] in *.
      repeat case_decide; try done.
      split; cbn [object threads tables mutex_ Mutex.writer_held
                  Mutex.reader_count]; try lia; try done.
      eapply threads_ok_update; [done..| |by left].
      unfold thread_ok. cbn [holds code th' hold_after]. try rewrite Hh; done.
    + cbn in Hstep. unfold restores in Hres. cbn [section_end] in Hres.
      injection Hstep as <- <-. cbn [hold_after] in *.
      repeat case_decide; try done.
      split; cbn [object threads tables mutex_ Mutex.writer_held
                  Mutex.reader_count]; try lia; try done.
      eapply threads_ok_update; [done..| |right; done].
      unfold thread_ok. cbn [holds code th' hold_after]. try rewrite Hh; done.
Qed.

Lemma steps_inv mem cfg cfg' :
  steps mem cfg cfg' → config_inv mem cfg → config_inv mem cfg'.
Proof.
  induction 1 as [|cfg cfg' cfg'' _ IH Hstep]; intros Hinv; [done|].
  specialize (IH Hinv).
  inversion Hstep; subst; eauto using step_call_inv, step_instr_inv.
Qed.

Lemma reachable_config_inv mem cfg :
  reachable_config mem cfg → config_inv mem cfg.
Proof. intros [work Hsteps]. eapply steps_inv; eauto using initial_inv. Qed.

(** While no thread is inside a writer section the flags match the entries. *)
Lemma no_writer_flags_match mem cfg :
  config_inv mem cfg →
  Forall (λ th, holds th ≠ Exclusive) (threads cfg) →
  flags_match_entries (tables (object cfg)).
Proof.
  intros [Hrd Hwr Hex Hth Htb] Hno. apply Htb.
  destruct (Mutex.writer_held (mutex_ (object cfg))); [|done].
  assert (Hz : count_holding Exclusive (threads cfg) = 0); [|lia].
  clear -Hno. induction Hno as [|th ths Hth _ IH]; [done|].
  rewrite count_holding_cons, IH. by rewrite decide_False.
Qed.

(** C3: in every state the object gets into, a capability flag of either kind
    is stored for a key exactly when the device table has an entry for it;
    [CreateDeviceDispatchTable] leaves the entry and both flags of its key in
    place, [RemoveDeviceDispatchTable] leaves none of the three; and with
    threads interleaved, the flags match the entries whenever no thread is
    inside a [Create] or a [Remove]. *)
Theorem flags_exist_iff_entry mem :
  (∀ s, reachable mem s → flags_match_entries (tables s)) ∧
  (∀ s device next v s',
     call (CreateDeviceDispatchTable mem device next) s = Done (v, s') →
     is_Some (device_dispatch_table_ (tables s')
                !! GetDispatchTableKey mem device) ∧
     is_Some (device_supports_debug_utils_extension_ (tables s')
                !! GetDispatchTableKey mem device) ∧
     is_Some (device_supports_debug_marker_extension_ (tables s')
                !! GetDispatchTableKey mem device)) ∧
  (∀ s device v s',
     call (RemoveDeviceDispatchTable mem device) s = Done (v, s') →
     device_dispatch_table_ (tables s') !! GetDispatchTableKey mem device = None ∧
     device_supports_debug_utils_extension_ (tables s')
       !! GetDispatchTableKey mem device = None ∧
     device_supports_debug_marker_extension_ (tables s')
       !! GetDispatchTableKey mem device = None) ∧
  (∀ cfg,
     reachable_config mem cfg →
     Forall (λ th, holds th ≠ Exclusive) (threads cfg) →
     flags_match_entries (tables (object cfg))).
Proof.
  split; [|split; [|split]].
  - intros s Hs. by apply reachable_inv in Hs as [? _].
  - intros s device next v s' Hc.
    apply create_device_done in Hc as (_ & _ & _ & ->).
    destruct (device_registered_lookup (GetDispatchTableKey mem device)
                (resolved_device_table device next) (tables s)) as (-> & -> & ->).
    eauto.
  - intros s device v s' Hc.
    apply remove_device_done in Hc as (_ & _ & _ & ->).
    apply device_removed_lookup.
  - intros cfg Hreach. apply (no_writer_flags_match mem). by apply reachable_config_inv.
Qed.

Lemma flags_exist_iff_entry_witness :
  flags_match_entries (tables Scenario.with_both) ∧
  (is_Some (device_dispatch_table_ (tables Scenario.with_device)
              !! GetDispatchTableKey Scenario.memory Scenario.device) ∧
   is_Some (device_supports_debug_utils_extension_ (tables Scenario.with_device)
              !! GetDispatchTableKey Scenario.memory Scenario.device) ∧
   is_Some (device_supports_debug_marker_extension_ (tables Scenario.with_device)
              !! GetDispatchTableKey Scenario.memory Scenario.device)) ∧
  (device_dispatch_table_ (tables init)
     !! GetDispatchTableKey Scenario.memory Scenario.device = None ∧
   device_supports_debug_utils_extension_ (tables init)
     !! GetDispatchTableKey Scenario.memory Scenario.device = None ∧
   device_supports_debug_marker_extension_ (tables init)
     !! GetDispatchTableKey Scenario.memory Scenario.device = None) ∧
  flags_match_entries
    (tables (object (initial [[CreateDevice Scenario.device Scenario.next]]))).
Proof.
  destruct (flags_exist_iff_entry Scenario.memory) as (H1 & H2 & H3 & H4).
  split; [|split; [|split]].
  - apply H1.
    exists [CreateDevice Scenario.device Scenario.next;
            CreateInstance Scenario.instance Scenario.next].
    vm_compute. reflexivity.
  - apply (H2 init Scenario.device Scenario.next VVoid). vm_compute. reflexivity.
  - apply (H3 Scenario.with_device Scenario.device VVoid). vm_compute. reflexivity.
  - apply H4.
    + exists [[CreateDevice Scenario.device Scenario.next]]. apply steps_refl.
    + repeat constructor; done.
Defined.

(** Only an assignment changes the tables. *)
Lemma instr_step_tables ins s r s' r' :
  instr_step ins s r = Next s' r' →
  tables s' ≠ tables s → ∃ upd, ins = Assign upd.
Proof.
  destruct ins; cbn; intros H Hne; eauto.
  - destruct (Mutex.WriterLock _); [|done]. by injection H as <- <-.
  - by injection H as <- <-.
  - destruct (Mutex.ReaderLock _); [|done]. by injection H as <- <-.
  - by injection H as <- <-.
  - destruct (cond _) as [[]|]; try done. by injection H as <- <-.
  - destruct (e _); [|done]. by injection H as <- <-.
Qed.

Lemma code_of_head mem c :
  ∃ body, code_of mem c
          = (if is_create_or_remove c then WriterMutexLock else ReaderMutexLock)
            :: body.
Proof.
  destruct (is_create_or_remove c) eqn:Hw.
  - destruct (writer_code mem c Hw) as (body & -> & _). eauto.
  - destruct (reader_code mem c Hw) as (body & -> & _). eauto.
Qed.

Lemma code_of_disciplined mem c :
  disciplined NoLock (code_of mem c) = true ∧
  lock_mode (code_of mem c) = if is_create_or_remove c then Exclusive else Shared.
Proof.
  destruct c as [instance next|instance|device next|device|f obj|f obj|obj|obj];
    cbn [code_of is_create_or_remove];
    rewrite ?instance_lookup_accessor, ?device_lookup_accessor;
    split; reflexivity.
Qed.

(** C9: every [Create] and [Remove] takes [mutex_] in exclusive mode and every
    accessor and extension query takes it in shared mode, the maps being read
    only under the lock and written only under the exclusive lock.  With any
    number of threads interleaved: a thread inside a [Create] or [Remove] is
    alone in holding the lock; the tables change only by a step of a thread
    that holds it exclusively; a thread entering an accessor or a query while
    another is inside one gets the lock at once; and a thread inside an
    accessor or a query sees flags for exactly the keys that have an entry. *)
Theorem locking_discipline mem :
  (∀ c,
     disciplined NoLock (code_of mem c) = true ∧
     lock_mode (code_of mem c)
       = if is_create_or_remove c then Exclusive else Shared) ∧
  (∀ cfg,
     reachable_config mem cfg →
     (∀ i th,
        threads cfg !! i = Some th → holds th = Exclusive →
        ∀ j th', threads cfg !! j = Some th' → j ≠ i → holds th' = NoLock) ∧
     (∀ cfg',
        step mem cfg (Some cfg') →
        tables (object cfg') ≠ tables (object cfg) →
        ∃ i th, threads cfg !! i = Some th ∧ holds th = Exclusive) ∧
     (∀ i j thi thj c,
        threads cfg !! i = Some thi → holds thi = Shared →
        threads cfg !! j = Some thj → code thj = code_of mem c →
        is_create_or_remove c = false →
        ∃ cfg' thj',
          step mem cfg (Some cfg') ∧
          threads cfg' !! j = Some thj' ∧ holds thj' = Shared ∧
          threads cfg' !! i = Some thi) ∧
     (∀ i th,
        threads cfg !! i = Some th → holds th = Shared →
        flags_match_entries (tables (object cfg)))).
Proof.
  split; [apply code_of_disciplined|].
  intros cfg Hreach.
  pose proof (reachable_config_inv _ _ Hreach) as [Hrd Hwr Hex Hth Htb].
  assert (Hshared : ∀ i th, threads cfg !! i = Some th → holds th = Shared →
                    Mutex.writer_held (mutex_ (object cfg)) = false).
  { intros i th Hi Hh. pose proof (count_holding_pos _ _ _ _ Hi Hh).
    destruct (Mutex.writer_held _); [|done]. specialize (Hex eq_refl). lia. }
  split; [|split; [|split]].
  - intros i th Hi Hh j th' Hj Hne.
    pose proof (count_holding_pos _ _ _ _ Hi Hh) as Hpos.
    destruct (Mutex.writer_held (mutex_ (object cfg))) eqn:Hw; [|lia].
    specialize (Hex eq_refl).
    destruct (holds th') eqn:Hh'; [done| |].
    + pose proof (count_holding_pos _ _ _ _ Hj Hh'). lia.
    + exfalso. apply Hne. eapply (count_holding_unique Exclusive); eauto. lia.
  - intros cfg' Hstep Hne.
    inversion Hstep as [? i th c cs Hi Hcode Hpend
                       |? i th ins rest s' r' Hi Hcode Hins|]; subst; [done|].
    cbn [object] in Hne.
    destruct (instr_step_tables _ _ _ _ _ Hins Hne) as [upd ->].
    exists i, th. split; [done|].
    pose proof (Forall_lookup_1 _ _ _ _ Hth Hi) as Hok.
    unfold thread_ok in Hok. rewrite Hcode in Hok.
    destruct (holds th); [|done..].
    destruct Hok as [?|[c Hc]]; [done|].
    destruct (code_of_head mem c) as [body Hb]. rewrite Hb in Hc.
    destruct (is_create_or_remove c); done.
  - intros i j thi thj c Hi Hhi Hj Hcode Hro.
    destruct (reader_code mem c Hro) as (body & Hbody & _).
    pose proof (Hshared _ _ Hi Hhi) as Hw.
    assert (Hne : i ≠ j).
    { intros ->. rewrite Hi in Hj. injection Hj as ->.
      pose proof (Forall_lookup_1 _ _ _ _ Hth Hi) as Hok.
      unfold thread_ok in Hok. rewrite Hhi, Hcode, Hbody in Hok. done. }
    eexists _, _. split; [|split; [|split]].
    + eapply (step_instr mem cfg j thj ReaderMutexLock body); [done|congruence|].
      cbn [instr_step]. unfold Mutex.ReaderLock. rewrite Hw. reflexivity.
    + cbn [threads]. apply list_lookup_insert_eq. eauto using lookup_lt_Some.
    + reflexivity.
    + cbn [threads]. by rewrite list_lookup_insert_ne.
  - intros i th Hi Hh. eauto.
Qed.

Lemma thread_step_sound mem cfg i cfg' :
  thread_step mem cfg i = Some cfg' → step mem cfg (Some cfg').
Proof.
  unfold thread_step.
  destruct (threads cfg !! i) as [th|] eqn:Hi; [|done].
  destruct (code th) as [|ins rest] eqn:Hcode.
  - destruct (pending th) as [|c cs] eqn:Hp; [done|].
    intros [= <-]. by eapply step_call.
  - destruct (instr_step ins (object cfg) (result th)) as [s' r'| |] eqn:Hins;
      [|done..].
    intros [= <-]. by eapply step_instr.
Qed.

Lemma steps_front mem cfg cfg' cfg'' :
  step mem cfg (Some cfg') → steps mem cfg' cfg'' → steps mem cfg cfg''.
Proof.
  intros Hstep Hsteps. induction Hsteps as [|? ? ? _ IH Hlast].
  - eapply steps_step; [apply steps_refl|done].
  - eapply steps_step; [exact (IH Hstep)|done].
Qed.

Lemma schedule_sound mem order : ∀ cfg cfg',
  schedule mem order cfg = Some cfg' → steps mem cfg cfg'.
Proof.
  induction order as [|i order IH]; intros cfg cfg' H; cbn [schedule] in H.
  - injection H as <-. apply steps_refl.
  - destruct (thread_step mem cfg i) as [cfg1|] eqn:Hs; [|done].
    eauto using steps_front, thread_step_sound.
Qed.

Lemma two_readers_reachable :
  reachable_config Scenario.memory Scenario.two_readers.
Proof.
  exists [[CreateDevice Scenario.device Scenario.next;
           QueryDebugUtils Scenario.command_buffer];
          [LookupDevice MQueueSubmit Scenario.command_buffer]].
  apply (schedule_sound _ [0; 0; 0; 0; 0; 0; 0; 0; 0; 0; 0; 1]).
  vm_compute. reflexivity.
Qed.

Lemma locking_discipline_witness :
  (disciplined NoLock (code_of Scenario.memory (RemoveDevice Scenario.device))
     = true ∧
   lock_mode (code_of Scenario.memory (RemoveDevice Scenario.device))
     = Exclusive) ∧
  (∃ cfg' thj',
     step Scenario.memory Scenario.two_readers (Some cfg') ∧
     threads cfg' !! 1 = Some thj' ∧ holds thj' = Shared ∧
     threads cfg' !! 0
       = Some {| pending := [];
                 code := tail (IsDebugUtilsExtensionSupported Scenario.memory
                                 Scenario.command_buffer);
                 holds := Shared; result := VVoid |}) ∧
  flags_match_entries (tables (object Scenario.two_readers)).
Proof.
  destruct (locking_discipline Scenario.memory) as [H1 H2].
  destruct (H2 Scenario.two_readers two_readers_reachable) as (_ & _ & H3 & H4).
  split; [apply (H1 (RemoveDevice Scenario.device))|]. split.
  - eapply (H3 0 1); [reflexivity..| |].
    + instantiate (1 := LookupDevice MQueueSubmit Scenario.command_buffer).
      reflexivity.
    + reflexivity.
  - eapply (H4 0); reflexivity.
Defined.

(** ** The scenario, run from the freshly constructed object

    The instance is registered and its destroy function looked up; the device
    is registered with debug-utils and without debug-marker entry points, and
    queried through a command buffer allocated from it; the device is removed,
    after which looking anything up for it kills the process. *)
Example end_to_end :
  run Scenario.memory
      [CreateInstance Scenario.instance Scenario.next;
       CreateDevice Scenario.device Scenario.next] init
    = Done Scenario.with_both ∧
  call (DestroyInstance Scenario.memory Scenario.instance) Scenario.with_both
    = Done (VPtr (Scenario.next Scenario.instance "vkDestroyInstance"),
            Scenario.with_both) ∧
  call (IsDebugMarkerExtensionSupported Scenario.memory Scenario.command_buffer)
       Scenario.with_both = Done (VBool false, Scenario.with_both) ∧
  call (IsDebugUtilsExtensionSupported Scenario.memory Scenario.command_buffer)
       Scenario.with_both = Done (VBool true, Scenario.with_both) ∧
  call (RemoveDeviceDispatchTable Scenario.memory Scenario.device)
       Scenario.with_both = Done (VVoid, Scenario.with_instance) ∧
  call (QueueSubmit Scenario.memory Scenario.command_buffer)
       Scenario.with_instance = Fatal ∧
  call (RemoveDeviceDispatchTable Scenario.memory Scenario.device)
       Scenario.with_instance = Fatal ∧
  call (CreateInstanceDispatchTable Scenario.memory Scenario.instance Scenario.next)
       Scenario.with_instance = Fatal.
Proof. repeat split; vm_compute; reflexivity. Qed.

(** ** FramePointerValidator *)

(** C10: [GetFpoFunctions] either has no result, exactly when the analysis of
    the named file at the given bit width could not be completed, or has as
    result the given regions that the analysis found to lack frame-pointer
    setup, in the order given: nothing else, and none of them left out.  No
    list at all comes with the failure. *)
Theorem get_fpo_functions_result (CodeBlock : Type)
    (analyse : string → bool → option (CodeBlock → bool))
    (functions : list CodeBlock) (file_name : string) (is_64_bit : bool) :
  match FramePointerValidator.GetFpoFunctions CodeBlock analyse
          functions file_name is_64_bit with
  | None => analyse file_name is_64_bit = None
  | Some fpo =>
      ∃ lacks_frame_pointer,
        analyse file_name is_64_bit = Some lacks_frame_pointer ∧
        fpo `sublist_of` functions ∧
        ∀ f, f ∈ fpo ↔ f ∈ functions ∧ lacks_frame_pointer f = true
  end.
Proof.
  unfold FramePointerValidator.GetFpoFunctions.
  destruct (analyse file_name is_64_bit) as [lacks|]; [|reflexivity].
  exists lacks. split; [reflexivity|]. split.
  - apply sublist_filter.
  - intros f. rewrite list_elem_of_filter. tauto.
Qed.

(** * Further properties of the dispatch table *)

(** ** A registration undone by the matching removal *)

Lemma effect_create_device_flags_fresh mem device next T v T' :
  effect mem (CreateDevice device next) T = Some (v, T') →
  device_supports_debug_utils_extension_ T !! GetDispatchTableKey mem device
    = None ∧
  device_supports_debug_marker_extension_ T !! GetDispatchTableKey mem device
    = None.
Proof.
  cbn [effect]. intros H.
  destruct (contains (device_dispatch_table_ T) _); [done|].
  destruct (contains (device_supports_debug_utils_extension_ T) _) eqn:Eu;
    [done|].
  destruct (contains (device_supports_debug_marker_extension_ T) _) eqn:Em;
    [done|].
  by rewrite <- !contains_false_iff.
Qed.

Lemma device_removed_registered key dt T :
  device_dispatch_table_ T !! key = None →
  device_supports_debug_utils_extension_ T !! key = None →
  device_supports_debug_marker_extension_ T !! key = None →
  device_removed key (device_registered key dt T) = T.
Proof.
  intros Hd Hu Hm. destruct T as [mi md mm mu]. cbn in *.
  unfold device_removed, device_registered,
    set_device_supports_debug_marker_extension_,
    set_device_supports_debug_utils_extension_, set_device_dispatch_table_.
  cbn. by rewrite !delete_insert_id.
Qed.

(** Whatever the state, a [CreateDeviceDispatchTable] that returns, followed
    by any accessors and queries that return, and then by
    [RemoveDeviceDispatchTable] on any object with the device's key, leaves
    the object exactly as it was before the registration. *)
Theorem create_remove_device_roundtrip mem s device next v s1 cs s2 obj :
  call (CreateDeviceDispatchTable mem device next) s = Done (v, s1) →
  Forall (λ c, is_create_or_remove c = false) cs →
  run mem cs s1 = Done s2 →
  GetDispatchTableKey mem obj = GetDispatchTableKey mem device →
  call (RemoveDeviceDispatchTable mem obj) s2 = Done (VVoid, s).
Proof.
  intros Hc Hro Hrun Hkey.
  apply read_only_run in Hrun as ->; [|done].
  pose proof (call_done mem (CreateDevice device next) s v s1 Hc) as (Hl & He & _).
  destruct (effect_create_device_flags_fresh _ _ _ _ _ _ He) as [Hu Hm].
  apply create_device_done in Hc as (_ & Hm1 & Hd & HT).
  cbn [lock_available is_create_or_remove] in Hl. apply mutex_is_free_spec in Hl.
  rewrite call_RemoveDeviceDispatchTable, Hm1, Hkey, HT.
  destruct (device_registered_lookup (GetDispatchTableKey mem device)
              (resolved_device_table device next) (tables s)) as (L1 & L2 & L3).
  rewrite (contains_true _ _ _ L1), (contains_true _ _ _ L2),
    (contains_true _ _ _ L3).
  cbn [Mutex.is_free Mutex.free Mutex.writer_held Mutex.reader_count negb andb].
  rewrite bool_decide_true by done.
  rewrite device_removed_registered by done.
  destruct s as [T m]. cbn in Hl. by rewrite Hl.
Qed.

Lemma create_remove_device_roundtrip_witness :
  call (RemoveDeviceDispatchTable Scenario.memory Scenario.command_buffer)
       Scenario.with_both = Done (VVoid, Scenario.with_instance).
Proof.
  apply (create_remove_device_roundtrip Scenario.memory Scenario.with_instance
           Scenario.device Scenario.next VVoid Scenario.with_both
           [LookupDevice MQueueSubmit Scenario.command_buffer;
            QueryDebugMarker Scenario.device]
           Scenario.with_both).
  - vm_compute. reflexivity.
  - repeat constructor.
  - vm_compute. reflexivity.
  - reflexivity.
Defined.

(** The same for [CreateInstanceDispatchTable] and
    [RemoveInstanceDispatchTable]. *)
Theorem create_remove_instance_roundtrip mem s instance next v s1 cs s2 obj :
  call (CreateInstanceDispatchTable mem instance next) s = Done (v, s1) →
  Forall (λ c, is_create_or_remove c = false) cs →
  run mem cs s1 = Done s2 →
  GetDispatchTableKey mem obj = GetDispatchTableKey mem instance →
  call (RemoveInstanceDispatchTable mem obj) s2 = Done (VVoid, s).
Proof.
  intros Hc Hro Hrun Hkey.
  apply read_only_run in Hrun as ->; [|done].
  pose proof (call_done mem (CreateInstance instance next) s v s1 Hc)
    as (Hl & _ & _).
  apply create_instance_done in Hc as (_ & Hm1 & Hd & HT).
  cbn [lock_available is_create_or_remove] in Hl. apply mutex_is_free_spec in Hl.
  rewrite call_RemoveInstanceDispatchTable, Hm1, Hkey, HT.
  assert (L : instance_dispatch_table_
                (instance_registered (GetDispatchTableKey mem instance)
                   (resolved_instance_table instance next) (tables s))
                !! GetDispatchTableKey mem instance
              = Some (resolved_instance_table instance next))
    by (cbn; apply lookup_insert_eq).
  rewrite (contains_true _ _ _ L).
  cbn [Mutex.is_free Mutex.free Mutex.writer_held Mutex.reader_count negb andb].
  rewrite bool_decide_true by done.
  destruct s as [[mi md mm mu] m]. cbn in *.
  unfold instance_removed, instance_registered, set_instance_dispatch_table_.
  cbn. by rewrite delete_insert_id, Hl.
Qed.

Lemma create_remove_instance_roundtrip_witness :
  call (RemoveInstanceDispatchTable Scenario.memory Scenario.instance)
       Scenario.with_both = Done (VVoid, Scenario.with_device).
Proof.
  apply (create_remove_instance_roundtrip Scenario.memory Scenario.with_device
           Scenario.instance Scenario.next VVoid Scenario.with_both
           [LookupInstance MDestroyInstance Scenario.instance]
           Scenario.with_both).
  - vm_compute. reflexivity.
  - repeat constructor.
  - vm_compute. reflexivity.
  - reflexivity.
Defined.

(** ** The instance table after a removal *)

Lemma effect_remove_instance_present mem instance T v T' :
  effect mem (RemoveInstance instance) T = Some (v, T') →
  is_Some (instance_dispatch_table_ T !! GetDispatchTableKey mem instance).
Proof.
  cbn [effect]. intros H. apply contains_spec.
  destruct (contains (instance_dispatch_table_ T) _); done.
Qed.

Lemma run_instance_absent_kept mem key cs : ∀ s s',
  run mem cs s = Done s' →
  Forall (λ c, ¬ creates_instance mem key c) cs →
  instance_dispatch_table_ (tables s) !! key = None →
  instance_dispatch_table_ (tables s') !! key = None.
Proof.
  induction cs as [|c cs IH]; intros s s' Hrun Hall Hd.
  - by injection Hrun as <-.
  - apply run_cons_done in Hrun as (v & s1 & Hc & Hr).
    apply Forall_cons in Hall as [Hc1 Hall].
    apply call_done in Hc as (_ & He & _).
    assert (Hnr : ¬ removes_instance mem key c).
    { destruct c; cbn [removes_instance]; try tauto. intros <-.
      apply effect_remove_instance_present in He as [? ?].
      unfold GetDispatchTableKey in *. congruence. }
    pose proof (effect_instance_other _ _ _ _ _ key He Hc1 Hnr) as E.
    apply (IH _ _ Hr Hall). congruence.
Qed.

(** Once [RemoveInstanceDispatchTable] has returned, and until the key is
    registered again as an instance, each of the four accessors of the
    instance table, called on an object with the removed key, dies on its
    [CHECK]; what is registered in the device table, even under the same key,
    makes no difference. *)
Theorem instance_lookup_after_remove_is_fatal mem s instance v s1 cs s2 obj f :
  call (RemoveInstanceDispatchTable mem instance) s = Done (v, s1) →
  run mem cs s1 = Done s2 →
  Forall (λ c, ¬ creates_instance mem (GetDispatchTableKey mem instance) c) cs →
  GetDispatchTableKey mem obj = GetDispatchTableKey mem instance →
  call (instance_lookup mem f obj) s2 = Fatal.
Proof.
  intros Hc Hr Hall Hkey.
  pose proof (call_done mem (RemoveInstance instance) s v s1 Hc) as (Hl & He & Hm).
  cbn [lock_available is_create_or_remove] in Hl. apply mutex_is_free_spec in Hl.
  assert (L : instance_dispatch_table_ (tables s1)
                !! GetDispatchTableKey mem instance = None).
  { cbn [effect] in He. destruct (contains _ _); [|done].
    injection He as _ <-. cbn. apply lookup_delete_eq. }
  pose proof (run_instance_absent_kept _ _ _ _ _ Hr Hall L) as K.
  rewrite instance_lookup_accessor, call_instance_accessor.
  rewrite (run_mutex _ _ _ _ Hr), Hm, Hl, Hkey, K. reflexivity.
Qed.

Lemma instance_lookup_after_remove_is_fatal_witness :
  call (instance_lookup Scenario.memory MGetInstanceProcAddr Scenario.instance)
       Scenario.with_device = Fatal.
Proof.
  apply (instance_lookup_after_remove_is_fatal Scenario.memory Scenario.with_both
           Scenario.instance VVoid Scenario.with_device
           [LookupDevice MQueueSubmit Scenario.device]
           Scenario.with_device Scenario.instance).
  - vm_compute. reflexivity.
  - vm_compute. reflexivity.
  - repeat constructor; cbn; tauto.
  - reflexivity.
Defined.

(** ** What a writer leaves alone *)

Lemma answer_call mem c s :
  lock_available c (mutex_ s) = true →
  answer (call (code_of mem c) s)
    = match effect mem c (tables s) with
      | Some (v, _) => Done v
      | None => Fatal
      end.
Proof.
  intros Hl. rewrite call_code_of, Hl.
  destruct (effect mem c (tables s)) as [[v T']|]; reflexivity.
Qed.

Lemma not_target_device mem w key :
  target mem w ≠ (DeviceTable, key) →
  ¬ creates_device mem key w ∧ ¬ removes_device mem key w.
Proof.
  intros Hne.
  destruct w; cbn [creates_device removes_device target] in *;
    split; try tauto; intros <-; by apply Hne.
Qed.

Lemma not_target_instance mem w key :
  target mem w ≠ (InstanceTable, key) →
  ¬ creates_instance mem key w ∧ ¬ removes_instance mem key w.
Proof.
  intros Hne.
  destruct w; cbn [creates_instance removes_instance target] in *;
    split; try tauto; intros <-; by apply Hne.
Qed.

(** A [Create] or [Remove] that returns changes the answer of no accessor and
    of no extension query that works on the other table, or on the same table
    with another key: an instance and a device may even share a key without
    the one being seen through the accessors of the other. *)
Theorem writer_frame mem w q s v s1 :
  is_create_or_remove w = true →
  is_create_or_remove q = false →
  target mem w ≠ target mem q →
  call (code_of mem w) s = Done (v, s1) →
  answer (call (code_of mem q) s1) = answer (call (code_of mem q) s).
Proof.
  intros Hw Hq Hne Hc.
  apply call_done in Hc as (Hl & He & Hm).
  unfold lock_available in Hl. rewrite Hw in Hl.
  apply mutex_is_free_spec in Hl.
  assert (Hq1 : lock_available q (mutex_ s1) = true)
    by (unfold lock_available; rewrite Hq, Hm, Hl; reflexivity).
  assert (Hq0 : lock_available q (mutex_ s) = true)
    by (unfold lock_available; rewrite Hq, Hl; reflexivity).
  rewrite !answer_call by done.
  destruct q as [instance next|instance|device next|device|f obj|f obj|obj|obj];
    try discriminate Hq; cbn [effect].
  - destruct (not_target_instance mem w _ Hne) as [H1 H2].
    rewrite (effect_instance_other _ _ _ _ _ _ He H1 H2).
    destruct (_ !! _) as [dt|]; [destruct (bool_decide _)|]; reflexivity.
  - destruct (not_target_device mem w _ Hne) as [H1 H2].
    destruct (effect_device_other _ _ _ _ _ _ He H1 H2) as (-> & _ & _).
    destruct (_ !! _) as [dt|]; [destruct (bool_decide _)|]; reflexivity.
  - destruct (not_target_device mem w _ Hne) as [H1 H2].
    destruct (effect_device_other _ _ _ _ _ _ He H1 H2) as (_ & _ & ->).
    destruct (_ !! _) as [b|]; reflexivity.
  - destruct (not_target_device mem w _ Hne) as [H1 H2].
    destruct (effect_device_other _ _ _ _ _ _ He H1 H2) as (_ & -> & _).
    destruct (_ !! _) as [b|]; reflexivity.
Qed.

Lemma writer_frame_witness :
  answer (call (code_of Scenario.memory
                  (LookupDevice MQueueSubmit Scenario.command_buffer))
               Scenario.with_both)
  = answer (call (code_of Scenario.memory
                    (LookupDevice MQueueSubmit Scenario.command_buffer))
                 Scenario.with_device).
Proof.
  apply (writer_frame Scenario.memory
           (CreateInstance Scenario.instance Scenario.next)
           (LookupDevice MQueueSubmit Scenario.command_buffer)
           Scenario.with_device VVoid Scenario.with_both).
  - reflexivity.
  - reflexivity.
  - vm_compute. discriminate.
  - vm_compute. reflexivity.
Defined.

(** ** The tables against the history of calls *)

Lemma effect_device_after mem key c T v T' o :
  effect mem c T = Some (v, T') →
  device_dispatch_table_ T !! key = o →
  device_supports_debug_utils_extension_ T !! key = supports_debug_utils <$> o →
  device_supports_debug_marker_extension_ T !! key = supports_debug_marker <$> o →
  device_dispatch_table_ T' !! key = device_after mem key o c ∧
  device_supports_debug_utils_extension_ T' !! key
    = supports_debug_utils <$> device_after mem key o c ∧
  device_supports_debug_marker_extension_ T' !! key
    = supports_debug_marker <$> device_after mem key o c.
Proof.
  intros He Hd Hu Hm.
  destruct c as [instance next|instance|device next|device|f obj|f obj|obj|obj];
    cbn [device_after];
    try (destruct (effect_device_other _ _ _ _ _ key He) as (-> & -> & ->);
         cbn; tauto).
  - destruct (decide (GetDispatchTableKey mem device = key)) as [<-|Hne].
    + cbn [effect] in He. destruct (_ || _); [done|]. injection He as _ <-.
      apply device_registered_lookup.
    + destruct (effect_device_other _ _ _ _ _ key He) as (-> & -> & ->);
        cbn; tauto.
  - destruct (decide (GetDispatchTableKey mem device = key)) as [<-|Hne].
    + cbn [effect] in He. destruct (_ && _); [|done]. injection He as _ <-.
      apply device_removed_lookup.
    + destruct (effect_device_other _ _ _ _ _ key He) as (-> & -> & ->);
        cbn; tauto.
Qed.

Lemma effect_instance_after mem key c T v T' :
  effect mem c T = Some (v, T') →
  instance_dispatch_table_ T' !! key
    = instance_after mem key (instance_dispatch_table_ T !! key) c.
Proof.
  intros He.
  destruct c as [instance next|instance|device next|device|f obj|f obj|obj|obj];
    cbn [instance_after];
    try (apply (effect_instance_other _ _ _ _ _ key He); cbn; tauto).
  - destruct (decide (GetDispatchTableKey mem instance = key)) as [<-|Hne].
    + cbn [effect] in He. destruct (contains _ _); [done|]. injection He as _ <-.
      cbn. apply lookup_insert_eq.
    + apply (effect_instance_other _ _ _ _ _ key He); cbn; tauto.
  - destruct (decide (GetDispatchTableKey mem instance = key)) as [<-|Hne].
    + cbn [effect] in He. destruct (contains _ _); [|done]. injection He as _ <-.
      cbn. apply lookup_delete_eq.
    + apply (effect_instance_other _ _ _ _ _ key He); cbn; tauto.
Qed.

Lemma run_follows_history mem key cs : ∀ s s' od oi,
  run mem cs s = Done s' →
  device_dispatch_table_ (tables s) !! key = od →
  device_supports_debug_utils_extension_ (tables s) !! key
    = supports_debug_utils <$> od →
  device_supports_debug_marker_extension_ (tables s) !! key
    = supports_debug_marker <$> od →
  instance_dispatch_table_ (tables s) !! key = oi →
  device_dispatch_table_ (tables s') !! key
    = fold_left (device_after mem key) cs od ∧
  device_supports_debug_utils_extension_ (tables s') !! key
    = supports_debug_utils <$> fold_left (device_after mem key) cs od ∧
  device_supports_debug_marker_extension_ (tables s') !! key
    = supports_debug_marker <$> fold_left (device_after mem key) cs od ∧
  instance_dispatch_table_ (tables s') !! key
    = fold_left (instance_after mem key) cs oi.
Proof.
  induction cs as [|c cs IH]; intros s s' od oi Hrun Hd Hu Hm Hi.
  - injection Hrun as <-. done.
  - apply run_cons_done in Hrun as (v & s1 & Hc & Hr).
    apply call_done in Hc as (_ & He & _).
    destruct (effect_device_after _ key _ _ _ _ od He Hd Hu Hm) as (D1 & D2 & D3).
    pose proof (effect_instance_after _ key _ _ _ _ He) as I1. rewrite Hi in I1.
    cbn [fold_left]. by apply (IH s1).
Qed.

(** In a state the object gets into by a sequence of calls that all returned,
    the device entry of a key is the table resolved by the last
    [CreateDeviceDispatchTable] of that key in the sequence, and there is
    none when a [RemoveDeviceDispatchTable] of the key came after it or the
    key was never registered; the two flags of the key are those of that
    table; and the instance entry follows the instance calls in the same
    way. *)
Theorem tables_follow_history mem cs s key :
  run mem cs init = Done s →
  device_dispatch_table_ (tables s) !! key = device_history mem key cs ∧
  device_supports_debug_utils_extension_ (tables s) !! key
    = supports_debug_utils <$> device_history mem key cs ∧
  device_supports_debug_marker_extension_ (tables s) !! key
    = supports_debug_marker <$> device_history mem key cs ∧
  instance_dispatch_table_ (tables s) !! key = instance_history mem key cs.
Proof.
  intros Hrun.
  apply (run_follows_history mem key cs init s None None Hrun);
    cbn; apply lookup_empty.
Qed.

Lemma tables_follow_history_witness :
  device_dispatch_table_ (tables Scenario.with_other_device) !! 4128%N
    = Some (resolved_device_table Scenario.other_device Scenario.next) ∧
  device_supports_debug_utils_extension_ (tables Scenario.with_other_device)
    !! 4128%N = Some true ∧
  device_supports_debug_marker_extension_ (tables Scenario.with_other_device)
    !! 4128%N = Some false ∧
  instance_dispatch_table_ (tables Scenario.with_other_device) !! 4128%N = None.
Proof.
  apply (tables_follow_history Scenario.memory
           [CreateDevice Scenario.device Scenario.next;
            CreateInstance Scenario.instance Scenario.next;
            LookupDevice MQueueSubmit Scenario.command_buffer;
            RemoveDevice Scenario.command_buffer;
            CreateDevice Scenario.other_device Scenario.next]
           Scenario.with_other_device 4128%N).
  vm_compute. reflexivity.
Defined.

(** ** The number of entries *)

Lemma count_calls_cons kind c cs :
  count_calls kind (c :: cs) = (if kind c then 1 else 0) + count_calls kind cs.
Proof.
  unfold count_calls. rewrite filter_cons.
  destruct (kind c); [rewrite decide_True by done|rewrite decide_False by done];
    reflexivity.
Qed.

Lemma size_insert_fresh {V} (m : gmap Key V) key x :
  contains m key = false → size (<[key:=x]> m) = S (size m).
Proof. intros H. apply map_size_insert_None. by apply contains_false_iff. Qed.

Lemma size_delete_present {V} (m : gmap Key V) key :
  contains m key = true → S (size (delete key m)) = size m.
Proof.
  intros H. apply contains_spec in H as [x Hx].
  rewrite <- (insert_delete_id m key x Hx) at 2.
  symmetry. apply map_size_insert_None, lookup_delete_eq.
Qed.

Lemma effect_sizes mem c T v T' :
  effect mem c T = Some (v, T') →
  size (instance_dispatch_table_ T') + (if is_remove_instance c then 1 else 0)
    = size (instance_dispatch_table_ T) + (if is_create_instance c then 1 else 0) ∧
  size (device_dispatch_table_ T') + (if is_remove_device c then 1 else 0)
    = size (device_dispatch_table_ T) + (if is_create_device c then 1 else 0) ∧
  size (device_supports_debug_utils_extension_ T')
    + (if is_remove_device c then 1 else 0)
    = size (device_supports_debug_utils_extension_ T)
      + (if is_create_device c then 1 else 0) ∧
  size (device_supports_debug_marker_extension_ T')
    + (if is_remove_device c then 1 else 0)
    = size (device_supports_debug_marker_extension_ T)
      + (if is_create_device c then 1 else 0).
Proof.
  intros He.
  destruct c as [instance next|instance|device next|device|f obj|f obj|obj|obj];
    cbn [effect is_remove_instance is_create_instance is_remove_device
         is_create_device] in *.
  - destruct (contains _ _) eqn:E; [done|]. injection He as _ <-. cbn.
    rewrite size_insert_fresh by done. lia.
  - destruct (contains _ _) eqn:E; [|done]. injection He as _ <-. cbn.
    pose proof (size_delete_present _ _ E). lia.
  - destruct (contains (device_dispatch_table_ T) _) eqn:E1; [done|].
    destruct (contains (device_supports_debug_utils_extension_ T) _) eqn:E2;
      [done|].
    destruct (contains (device_supports_debug_marker_extension_ T) _) eqn:E3;
      [done|].
    injection He as _ <-. cbn. rewrite !size_insert_fresh by done. lia.
  - destruct (contains (device_dispatch_table_ T) _) eqn:E1; [|done].
    destruct (contains (device_supports_debug_utils_extension_ T) _) eqn:E2;
      [|done].
    destruct (contains (device_supports_debug_marker_extension_ T) _) eqn:E3;
      [|done].
    injection He as _ <-. cbn.
    pose proof (size_delete_present _ _ E1).
    pose proof (size_delete_present _ _ E2).
    pose proof (size_delete_present _ _ E3). lia.
  - destruct (_ !! _); [|done]. destruct (bool_decide _); [|done].
    injection He as _ <-. lia.
  - destruct (_ !! _); [|done]. destruct (bool_decide _); [|done].
    injection He as _ <-. lia.
  - destruct (_ !! _); [|done]. injection He as _ <-. lia.
  - destruct (_ !! _); [|done]. injection He as _ <-. lia.
Qed.

Lemma run_sizes mem cs : ∀ s s',
  run mem cs s = Done s' →
  size (instance_dispatch_table_ (tables s')) + count_calls is_remove_instance cs
    = size (instance_dispatch_table_ (tables s))
      + count_calls is_create_instance cs ∧
  size (device_dispatch_table_ (tables s')) + count_calls is_remove_device cs
    = size (device_dispatch_table_ (tables s))
      + count_calls is_create_device cs ∧
  size (device_supports_debug_utils_extension_ (tables s'))
    + count_calls is_remove_device cs
    = size (device_supports_debug_utils_extension_ (tables s))
      + count_calls is_create_device cs ∧
  size (device_supports_debug_marker_extension_ (tables s'))
    + count_calls is_remove_device cs
    = size (device_supports_debug_marker_extension_ (tables s))
      + count_calls is_create_device cs.
Proof.
  induction cs as [|c cs IH]; intros s s' Hrun.
  - injection Hrun as <-. unfold count_calls. cbn. lia.
  - apply run_cons_done in Hrun as (v & s1 & Hc & Hr).
    apply call_done in Hc as (_ & He & _).
    pose proof (effect_sizes _ _ _ _ _ He) as (E1 & E2 & E3 & E4).
    destruct (IH _ _ Hr) as (F1 & F2 & F3 & F4).
    rewrite !count_calls_cons. lia.
Qed.

(** In a state the object gets into by a sequence of calls that all returned,
    each table holds as many entries as the sequence has [Create]s for it
    less its [Remove]s, and each flag map holds as many flags as the device
    table holds entries: every [Create] adds exactly one entry and every
    [Remove] takes exactly one away, so that a run in which every [Create] is
    matched by a [Remove] leaves nothing behind. *)
Theorem entries_balance mem cs s :
  run mem cs init = Done s →
  size (instance_dispatch_table_ (tables s)) + count_calls is_remove_instance cs
    = count_calls is_create_instance cs ∧
  size (device_dispatch_table_ (tables s)) + count_calls is_remove_device cs
    = count_calls is_create_device cs ∧
  size (device_supports_debug_utils_extension_ (tables s))
    = size (device_dispatch_table_ (tables s)) ∧
  size (device_supports_debug_marker_extension_ (tables s))
    = size (device_dispatch_table_ (tables s)) ∧
  (count_calls is_create_instance cs = count_calls is_remove_instance cs →
   count_calls is_create_device cs = count_calls is_remove_device cs →
   tables s = empty_tables).
Proof.
  intros Hrun. destruct (run_sizes _ _ _ _ Hrun) as (E1 & E2 & E3 & E4).
  cbn [init tables empty_tables instance_dispatch_table_ device_dispatch_table_
       device_supports_debug_utils_extension_
       device_supports_debug_marker_extension_] in *.
  rewrite !map_size_empty in *.
  split; [lia|]. split; [lia|]. split; [lia|]. split; [lia|].
  intros Hi Hd. destruct (tables s) as [mi md mm mu]. cbn in *.
  f_equal; apply map_size_empty_inv; lia.
Qed.

Lemma entries_balance_witness :
  size (instance_dispatch_table_ (tables init)) + 1 = 1 ∧
  size (device_dispatch_table_ (tables init)) + 1 = 1 ∧
  size (device_supports_debug_utils_extension_ (tables init))
    = size (device_dispatch_table_ (tables init)) ∧
  size (device_supports_debug_marker_extension_ (tables init))
    = size (device_dispatch_table_ (tables init)) ∧
  (1 = 1 → 1 = 1 → tables init = empty_tables).
Proof.
  apply (entries_balance Scenario.memory
           [CreateDevice Scenario.device Scenario.next;
            CreateInstance Scenario.instance Scenario.next;
            LookupDevice MQueueSubmit Scenario.command_buffer;
            RemoveDevice Scenario.command_buffer;
            RemoveInstance Scenario.instance]
           init).
  vm_compute. reflexivity.
Defined.

(** ** The lock is given back, and nobody waits for ever *)

Lemma holder_exists h ths :
  0 < count_holding h ths → ∃ i th, ths !! i = Some th ∧ holds th = h.
Proof.
  induction ths as [|x ths IH]; [unfold count_holding; cbn; lia|].
  rewrite count_holding_cons. destruct (decide (holds x = h)) as [Hx|Hx].
  - intros _. by exists 0, x.
  - intros Hpos. destruct IH as (i & th & Hi & Hh); [lia|]. by exists (S i), th.
Qed.

Lemma nolock_head mem T th ins rest :
  thread_ok mem T th → holds th = NoLock → code th = ins :: rest →
  (ins = WriterMutexLock ∨ ins = ReaderMutexLock) ∧
  ∃ c, code_of mem c = ins :: rest.
Proof.
  unfold thread_ok. intros Hok Hh Hcode. rewrite Hh, Hcode in Hok.
  destruct Hok as [?|[c Hc]]; [done|].
  destruct (code_of_head mem c) as [body Hb]. rewrite Hb in Hc.
  injection Hc as -> ->. split; [destruct (is_create_or_remove c); tauto|eauto].
Qed.

(** A thread inside a critical section is never kept waiting. *)
Lemma holder_steps mem cfg i th :
  config_inv mem cfg →
  threads cfg !! i = Some th → holds th ≠ NoLock →
  ∃ o, step mem cfg o.
Proof.
  intros [_ _ _ Hth _] Hi Hh.
  pose proof (Forall_lookup_1 _ _ _ _ Hth Hi) as Hok. unfold thread_ok in Hok.
  assert (Hcode : ∃ ins rest, code th = ins :: rest ∧
                    ∀ s r, instr_step ins s r ≠ Block).
  { destruct (holds th); [done| |destruct Hok as [Hok _]];
      destruct (code th) as [|ins rest]; try discriminate Hok;
      exists ins, rest; (split; [done|]); intros s r;
      destruct ins; try discriminate Hok; cbn; try done;
      repeat case_match; done. }
  destruct Hcode as (ins & rest & Hcode & Hnb).
  destruct (instr_step ins (object cfg) (result th)) as [s' r'| |] eqn:Hins.
  - eexists. by eapply step_instr.
  - eexists. by eapply step_abort.
  - by apply Hnb in Hins.
Qed.

(** With threads interleaved in any way, as long as some thread has a call
    to finish or to make, some thread can take a step (which may be the death
    of the process on a failed [CHECK]): the threads never all wait for the
    mutex. *)
Theorem no_deadlock mem cfg i th :
  reachable_config mem cfg →
  threads cfg !! i = Some th →
  code th ≠ [] ∨ pending th ≠ [] →
  ∃ o, step mem cfg o.
Proof.
  intros Hreach Hi Hwork.
  pose proof (reachable_config_inv _ _ Hreach) as Hinv.
  destruct (decide (0 < count_holding Shared (threads cfg))) as [HS|HS].
  { apply holder_exists in HS as (j & thj & Hj & Hh).
    apply (holder_steps mem cfg j thj); [done..|]. by rewrite Hh. }
  destruct (decide (0 < count_holding Exclusive (threads cfg))) as [HE|HE].
  { apply holder_exists in HE as (j & thj & Hj & Hh).
    apply (holder_steps mem cfg j thj); [done..|]. by rewrite Hh. }
  destruct Hinv as [Hrd Hwr _ Hth _].
  assert (Hno : holds th = NoLock).
  { destruct (holds th) eqn:Hh; [done|exfalso..].
    - apply HS. eauto using count_holding_pos.
    - apply HE. eauto using count_holding_pos. }
  assert (Hw : Mutex.writer_held (mutex_ (object cfg)) = false)
    by (destruct (Mutex.writer_held _); [lia|done]).
  assert (Hn : Mutex.reader_count (mutex_ (object cfg)) = 0) by lia.
  pose proof (Forall_lookup_1 _ _ _ _ Hth Hi) as Hok.
  destruct (code th) as [|ins rest] eqn:Hcode.
  - destruct Hwork as [?|Hp]; [done|].
    destruct (pending th) as [|c cs] eqn:Hpend; [done|].
    eexists. by eapply step_call.
  - destruct (nolock_head _ _ _ _ _ Hok Hno Hcode) as [[->| ->] _].
    + eexists. eapply (step_instr mem cfg i th); [done..|].
      cbn [instr_step]. unfold Mutex.WriterLock. rewrite Hw, Hn. reflexivity.
    + eexists. eapply (step_instr mem cfg i th); [done..|].
      cbn [instr_step]. unfold Mutex.ReaderLock. rewrite Hw. reflexivity.
Qed.

Lemma no_deadlock_witness : ∃ o, step Scenario.memory Scenario.two_readers o.
Proof.
  apply (no_deadlock Scenario.memory Scenario.two_readers 1
           {| pending := [];
              code := QueueSubmit Scenario.memory Scenario.command_buffer;
              holds := NoLock; result := VVoid |}).
  - exists [[CreateDevice Scenario.device Scenario.next;
             QueryDebugUtils Scenario.command_buffer];
            [LookupDevice MQueueSubmit Scenario.command_buffer]].
    apply (schedule_sound _ [0; 0; 0; 0; 0; 0; 0; 0; 0; 0; 0; 1]).
    vm_compute. reflexivity.
  - reflexivity.
  - left. discriminate.
Defined.

(** Every member function that returns leaves [mutex_] as it found it; a
    thread that uses the object alone never waits for the lock; and with
    threads interleaved, the mutex is free whenever no thread is inside a
    call. *)
Theorem lock_always_released mem :
  (∀ c s v s', call (code_of mem c) s = Done (v, s') → mutex_ s' = mutex_ s) ∧
  (∀ c s, reachable mem s → call (code_of mem c) s ≠ Blocked) ∧
  (∀ cfg,
     reachable_config mem cfg →
     Forall (λ th, code th = []) (threads cfg) →
     mutex_ (object cfg) = Mutex.free).
Proof.
  split; [|split].
  - intros c s v s' H. by apply call_done in H as (_ & _ & ?).
  - intros c s Hs. apply reachable_inv in Hs as [_ Hm].
    rewrite call_code_of, Hm.
    assert (Hl : lock_available c Mutex.free = true)
      by (unfold lock_available; destruct (is_create_or_remove c); reflexivity).
    rewrite Hl. destruct (effect mem c (tables s)) as [[v T']|]; done.
  - intros cfg Hreach Hidle.
    destruct (reachable_config_inv _ _ Hreach) as [Hrd Hwr _ Hth _].
    assert (Hcount : ∀ h, h ≠ NoLock → count_holding h (threads cfg) = 0).
    { intros h Hh.
      destruct (decide (0 < count_holding h (threads cfg))) as [Hpos|]; [|lia].
      apply holder_exists in Hpos as (i & th & Hi & Hhi).
      pose proof (Forall_lookup_1 _ _ _ _ Hth Hi) as Hok.
      pose proof (Forall_lookup_1 _ _ _ _ Hidle Hi) as Hcode.
      unfold thread_ok in Hok. rewrite Hhi, Hcode in Hok.
      destruct h; [done|discriminate Hok|destruct Hok; discriminate]. }
    rewrite (Hcount Shared) in Hrd by done.
    rewrite (Hcount Exclusive) in Hwr by done.
    destruct (mutex_ (object cfg)) as [w n]. cbn in *.
    destruct w; [lia|]. by subst n.
Qed.

Lemma lock_always_released_witness :
  mutex_ Scenario.with_device = mutex_ init ∧
  call (code_of Scenario.memory
          (CreateDevice Scenario.other_device Scenario.next))
       Scenario.with_device ≠ Blocked ∧
  mutex_ (object (initial [[RemoveDevice Scenario.device]])) = Mutex.free.
Proof.
  destruct (lock_always_released Scenario.memory) as (H1 & H2 & H3).
  split; [|split].
  - apply (H1 (CreateDevice Scenario.device Scenario.next) init VVoid).
    vm_compute. reflexivity.
  - apply H2. exists [CreateDevice Scenario.device Scenario.next].
    vm_compute. reflexivity.
  - apply H3.
    + exists [[RemoveDevice Scenario.device]]. apply steps_refl.
    + repeat constructor.
Defined.

(** ** [at] never throws *)

Lemma code_of_no_throw mem c ins body :
  code_of mem c = ins :: body → ∀ T, no_throw body T.
Proof.
  intros Hcode T.
  destruct c as [instance next|instance|device next|device|f obj|f obj|obj|obj];
    cbn [code_of] in Hcode;
    rewrite ?instance_lookup_accessor, ?device_lookup_accessor in Hcode;
    injection Hcode as <- <-; cbn [no_throw].
  - destruct (negb _); cbn; done.
  - destruct (contains _ _); cbn; done.
  - destruct (negb _); [|done]. cbn.
    destruct (negb _); [|done]. cbn.
    destruct (negb _); done.
  - destruct (contains _ _); [|done]. cbn.
    destruct (contains _ _); [|done]. cbn.
    destruct (contains _ _); done.
  - destruct (instance_dispatch_table_ T !! GetDispatchTableKey mem obj)
      as [dt|] eqn:Hk.
    + rewrite (contains_true _ _ _ Hk). cbn.
      destruct (bool_decide _); [|done]. cbn. eauto.
    + by rewrite (contains_false _ _ Hk).
  - destruct (device_dispatch_table_ T !! GetDispatchTableKey mem obj)
      as [dt|] eqn:Hk.
    + rewrite (contains_true _ _ _ Hk). cbn.
      destruct (bool_decide _); [|done]. cbn. eauto.
    + by rewrite (contains_false _ _ Hk).
  - destruct (device_supports_debug_marker_extension_ T
                !! GetDispatchTableKey mem obj) as [b|] eqn:Hk.
    + rewrite (contains_true _ _ _ Hk). cbn. eauto.
    + by rewrite (contains_false _ _ Hk).
  - destruct (device_supports_debug_utils_extension_ T
                !! GetDispatchTableKey mem obj) as [b|] eqn:Hk.
    + rewrite (contains_true _ _ _ Hk). cbn. eauto.
    + by rewrite (contains_false _ _ Hk).
Qed.

Lemma exclusive_alone mem cfg i th j th' :
  config_inv mem cfg →
  threads cfg !! i = Some th → holds th = Exclusive →
  threads cfg !! j = Some th' → j ≠ i → holds th' = NoLock.
Proof.
  intros [Hrd Hwr Hex _ _] Hi Hh Hj Hne.
  pose proof (count_holding_pos _ _ _ _ Hi Hh) as Hpos.
  destruct (Mutex.writer_held (mutex_ (object cfg))) eqn:Hw; [|lia].
  specialize (Hex eq_refl).
  destruct (holds th') eqn:Hh'; [done| |].
  - pose proof (count_holding_pos _ _ _ _ Hj Hh'). lia.
  - exfalso. apply Hne. eapply (count_holding_unique Exclusive); eauto. lia.
Qed.

Lemma step_instr_no_throw mem cfg i th ins rest s' r' :
  config_inv mem cfg →
  Forall (λ th, holds th ≠ NoLock → no_throw (code th) (tables (object cfg)))
    (threads cfg) →
  threads cfg !! i = Some th →
  code th = ins :: rest →
  instr_step ins (object cfg) (result th) = Next s' r' →
  Forall (λ th, holds th ≠ NoLock → no_throw (code th) (tables s'))
    (<[i := {| pending := pending th; code := rest;
               holds := hold_after ins (holds th); result := r' |}]>
       (threads cfg)).
Proof.
  intros Hinv Hsafe Hi Hcode Hstep.
  pose proof (Forall_lookup_1 _ _ _ _ (inv_threads _ _ Hinv) Hi) as Hok.
  pose proof (Forall_lookup_1 _ _ _ _ Hsafe Hi) as Hmine.
  cbn beta in Hmine. rewrite Hcode in Hmine.
  assert (Hothers : tables s' = tables (object cfg) ∨ holds th = Exclusive).
  { destruct ins; cbn in Hstep; repeat case_match; try done;
      try (injection Hstep as <- <-; by left).
    right. unfold thread_ok in Hok. rewrite Hcode in Hok.
    destruct (holds th) eqn:Hh; [|done..].
    destruct (nolock_head mem (tables (object cfg)) th _ _
                ltac:(unfold thread_ok; by rewrite Hh, Hcode) Hh Hcode)
      as [[?|?] _]; done. }
  apply Forall_lookup. intros j thj Hj.
  destruct (decide (i = j)) as [<-|Hne].
  - rewrite list_lookup_insert_eq in Hj by eauto using lookup_lt_Some.
    injection Hj as <-. cbn [holds code]. intros Hheld.
    destruct (decide (holds th = NoLock)) as [Hno|Hyes].
    + destruct (nolock_head _ _ _ _ _ Hok Hno Hcode) as [_ [c Hc]].
      eauto using code_of_no_throw.
    + specialize (Hmine Hyes). unfold thread_ok in Hok. rewrite Hcode in Hok.
      destruct ins as [| | | |cond|upd|e]; cbn [hold_after] in Hheld; try done;
        cbn in Hstep; cbn [no_throw] in Hmine;
        try (destruct (holds th); cbn in Hok;
             [done|discriminate Hok|destruct Hok as [Hok _]; discriminate Hok]).
      * destruct (cond (tables (object cfg))) as [[]|]; try done.
        by injection Hstep as <- <-.
      * by injection Hstep as <- <-.
      * destruct (e (tables (object cfg))); [|done].
        injection Hstep as <- <-. tauto.
  - rewrite list_lookup_insert_ne in Hj by done.
    pose proof (Forall_lookup_1 _ _ _ _ Hsafe Hj) as Hj'. cbn beta in Hj'.
    intros Hheld. destruct Hothers as [->|Hex]; [tauto|].
    exfalso. apply Hheld.
    eapply (exclusive_alone mem cfg i th j thj); eauto.
Qed.

Lemma steps_no_throw mem cfg cfg' :
  steps mem cfg cfg' →
  config_inv mem cfg →
  Forall (λ th, holds th ≠ NoLock → no_throw (code th) (tables (object cfg)))
    (threads cfg) →
  Forall (λ th, holds th ≠ NoLock → no_throw (code th) (tables (object cfg')))
    (threads cfg').
Proof.
  induction 1 as [|cfg cfg' cfg'' Hsteps IH Hstep]; intros Hinv Hsafe; [done|].
  specialize (IH Hinv Hsafe).
  pose proof (steps_inv _ _ _ Hsteps Hinv) as Hinv'.
  inversion Hstep as [? i th c cs Hi Hcode Hpend
                     |? i th ins rest s' r' Hi Hcode Hins|]; subst.
  - cbn [object threads]. apply Forall_insert; [done|]. cbn [holds code].
    intros Hheld. exfalso. apply Hheld.
    pose proof (Forall_lookup_1 _ _ _ _ (inv_threads _ _ Hinv') Hi) as Hok.
    unfold thread_ok in Hok. rewrite Hcode in Hok.
    destruct (holds th); [done|discriminate Hok|destruct Hok; discriminate].
  - cbn [object threads]. eauto using step_instr_no_throw.
Qed.

(** With threads interleaved in any way, the only statement on which the
    process dies is a [CHECK] whose condition is false: no [CHECK] condition
    and no [return] ever evaluates [flat_hash_map::at] on a missing key,
    because the [CHECK(... contains(key))] before it was passed under the
    same lock. *)
Theorem only_failed_checks_abort mem cfg i th ins rest :
  reachable_config mem cfg →
  threads cfg !! i = Some th →
  code th = ins :: rest →
  instr_step ins (object cfg) (result th) = Abort →
  ∃ cond, ins = CHECK cond ∧ cond (tables (object cfg)) = Some false.
Proof.
  intros [work Hsteps] Hi Hcode Habort.
  pose proof (steps_inv _ _ _ Hsteps (initial_inv mem work)) as Hinv.
  assert (Hsafe0 : Forall (λ th, holds th ≠ NoLock →
                      no_throw (code th) (tables (object (initial work))))
                     (threads (initial work))).
  { cbn [initial threads]. apply Forall_fmap, Forall_forall. by intros cs _ []. }
  pose proof (steps_no_throw _ _ _ Hsteps (initial_inv mem work) Hsafe0) as Hsafe.
  pose proof (Forall_lookup_1 _ _ _ _ (inv_threads _ _ Hinv) Hi) as Hok.
  pose proof (Forall_lookup_1 _ _ _ _ Hsafe Hi) as Hmine. cbn beta in Hmine.
  rewrite Hcode in Hmine.
  destruct (decide (holds th = NoLock)) as [Hno|Hyes].
  { destruct (nolock_head _ _ _ _ _ Hok Hno Hcode) as [[->| ->] _];
      cbn in Habort; repeat case_match; done. }
  specialize (Hmine Hyes).
  destruct ins as [| | | |cond|upd|e]; cbn in Habort; cbn [no_throw] in Hmine;
    try (repeat case_match; done).
  - exists cond. split; [done|].
    destruct (cond (tables (object cfg))) as [[]|]; done.
  - destruct Hmine as [[v Hv] _]. by rewrite Hv in Habort.
Qed.

Lemma only_failed_checks_abort_witness :
  ∃ cond,
    CHECK (λ T, Some (contains (device_dispatch_table_ T)
                        (GetDispatchTableKey Scenario.memory Scenario.device)))
      = CHECK cond ∧
    cond (tables (object Scenario.unregistered_reader)) = Some false.
Proof.
  eapply (only_failed_checks_abort Scenario.memory Scenario.unregistered_reader 0).
  - exists [[LookupDevice MQueueSubmit Scenario.device]].
    apply (schedule_sound _ [0; 0]). vm_compute. reflexivity.
  - reflexivity.
  - reflexivity.
  - vm_compute. reflexivity.
Defined.

(** ** Registrations and removals of different objects, in either order *)

Lemma contains_insert_ne {V} (m : gmap Key V) k k' x :
  k' ≠ k → contains (<[k':=x]> m) k = contains m k.
Proof. intros H. unfold contains. by rewrite lookup_insert_ne. Qed.

Lemma contains_delete_ne {V} (m : gmap Key V) k k' :
  k' ≠ k → contains (delete k' m) k = contains m k.
Proof. intros H. unfold contains. by rewrite lookup_delete_ne. Qed.

Lemma run_two_writers mem w1 w2 s :
  is_create_or_remove w1 = true → is_create_or_remove w2 = true →
  run mem [w1; w2] s =
    if Mutex.is_free (mutex_ s) then
      match effect mem w1 (tables s) ≫= λ r, effect mem w2 r.2 with
      | Some (_, T) => Done {| tables := T; mutex_ := mutex_ s |}
      | None => Fatal
      end
    else Blocked.
Proof.
  intros H1 H2. cbn [run]. rewrite call_code_of. unfold lock_available.
  rewrite H1. destruct (Mutex.is_free (mutex_ s)) eqn:Hf; [|reflexivity].
  destruct (effect mem w1 (tables s)) as [[v1 T1]|]; [|reflexivity]. cbn.
  rewrite call_code_of. unfold lock_available. rewrite H2. cbn. rewrite Hf.
  destruct (effect mem w2 T1) as [[v2 T2]|]; reflexivity.
Qed.

Lemma effects_commute mem w1 w2 T :
  is_create_or_remove w1 = true → is_create_or_remove w2 = true →
  target mem w1 ≠ target mem w2 →
  snd <$> (effect mem w1 T ≫= λ r, effect mem w2 r.2)
    = snd <$> (effect mem w2 T ≫= λ r, effect mem w1 r.2).
Proof.
  intros H1 H2 Hne.
  destruct w1 as [a na|a|a na|a| | | |]; try discriminate H1;
  destruct w2 as [b nb|b|b nb|b| | | |]; try discriminate H2;
  cbn [target] in Hne;
  try (assert (Hk : GetDispatchTableKey mem a ≠ GetDispatchTableKey mem b)
         by (intros E; apply Hne; by rewrite E);
       assert (Hk' : GetDispatchTableKey mem b ≠ GetDispatchTableKey mem a)
         by (intros E; apply Hne; by rewrite E));
  destruct T as [mi md mm mu];
  unfold effect, instance_registered, instance_removed, device_registered,
    device_removed, set_instance_dispatch_table_, set_device_dispatch_table_,
    set_device_supports_debug_marker_extension_,
    set_device_supports_debug_utils_extension_;
  cbn -[contains];
  rewrite ?contains_insert_ne, ?contains_delete_ne by done;
  repeat match goal with
    | |- context [contains ?m ?k] =>
        destruct (contains m k) eqn:?; cbn -[contains];
        rewrite ?contains_insert_ne, ?contains_delete_ne by done
    end;
  try reflexivity; try congruence;
  f_equal; f_equal;
  first [ by apply insert_insert_ne
        | by apply delete_delete
        | by apply delete_insert_ne
        | by (symmetry; apply delete_insert_ne) ].
Qed.

(** Two calls among the [Create]s and [Remove]s that work on different
    tables, or on the same table with different keys, made one after the
    other by a thread, have the same outcome in either order: both return
    and leave the same object, or the process dies in both orders. *)
Theorem writers_commute mem w1 w2 s :
  is_create_or_remove w1 = true →
  is_create_or_remove w2 = true →
  target mem w1 ≠ target mem w2 →
  run mem [w1; w2] s = run mem [w2; w1] s.
Proof.
  intros H1 H2 Hne. rewrite !run_two_writers by done.
  destruct (Mutex.is_free (mutex_ s)); [|reflexivity].
  pose proof (effects_commute mem w1 w2 (tables s) H1 H2 Hne) as E.
  destruct (effect mem w1 (tables s) ≫= _) as [[v1 T1]|];
    destruct (effect mem w2 (tables s) ≫= _) as [[v2 T2]|];
    cbn in E; congruence.
Qed.

Lemma writers_commute_witness :
  run Scenario.memory
      [CreateDevice Scenario.other_device Scenario.next;
       RemoveDevice Scenario.command_buffer] Scenario.with_both
  = run Scenario.memory
      [RemoveDevice Scenario.command_buffer;
       CreateDevice Scenario.other_device Scenario.next] Scenario.with_both.
Proof.
  apply (writers_commute Scenario.memory
           (CreateDevice Scenario.other_device Scenario.next)
           (RemoveDevice Scenario.command_buffer) Scenario.with_both).
  - reflexivity.
  - reflexivity.
  - vm_compute. discriminate.
Defined.
